(** * The market-data WebSocket client of polymarket-sdk-go

    A shallow embedding of [client/websocket_client.go]: the client record,
    its mutex, the connect / subscribe / read-loop / reconnect operations,
    written as computations over the client state that either return or
    block on the mutex.  What the client does to the outside (dials, frames
    written, callbacks invoked, goroutines and timers started) is recorded
    in a trace; what the outside answers (credential derivation, URL
    parsing, dialing, writing) is handed to each operation as a [World]. *)

From Stdlib Require Import String List Bool ZArith Lia.
Import ListNotations.
Local Open Scope string_scope.
Local Open Scope list_scope.
Local Open Scope Z_scope.

(** ** Errors *)

(** Go [error] values: one produced by a collaborator, one made with
    [fmt.Errorf] without a cause, one wrapping a cause with [%w]. *)
Inductive error : Type :=
| ErrExternal (what : string)
| ErrNew (msg : string)
| ErrWrap (msg : string) (cause : error).

(** ** Go [int] *)

Definition int_min : Z := - 2 ^ 63.
Definition int_max : Z := 2 ^ 63 - 1.

(** Two's-complement wrap-around of a 64-bit [int]. *)
Definition wrap_int (z : Z) : Z := (z + 2 ^ 63) mod 2 ^ 64 - 2 ^ 63.

(** [x++] on an [int]. *)
Definition int_incr (z : Z) : Z := wrap_int (z + 1).

(** ** Inbound payloads *)

(** A JSON document as [encoding/json] sees it. *)
#[warnings="-register-all"]
Inductive JSON : Type :=
| JNull
| JBool (b : bool)
| JNumber (literal : string)
| JString (s : string)
| JArray (elements : list JSON)
| JObject (members : list (string * JSON)).

(** The bytes of a text frame: either a JSON document or text that
    [encoding/json] rejects (the heartbeat acknowledgement is such a text). *)
Inductive Payload : Type :=
| NotJSON (text : string)
| Doc (v : JSON).

(** [string(message) == "PONG"]: the four bytes P, O, N, G are not a JSON
    document, so only a [NotJSON] payload can be equal to them. *)
Definition is_PONG (message : Payload) : bool :=
  match message with
  | NotJSON text => String.eqb text "PONG"
  | Doc _ => false
  end.

(** [json.Unmarshal(data, &messages)] with [messages []json.RawMessage]:
    an array gives its elements as raw messages, [null] leaves the slice
    nil without error, everything else is an error. *)
Definition json_Unmarshal_RawMessages (data : Payload) : option (list Payload) :=
  match data with
  | Doc (JArray elements) => Some (map Doc elements)
  | Doc JNull => Some []
  | _ => None
  end.

(** ** Market-channel messages ([types] package) *)

Record OrderSummary : Type := { Price : string; Size : string }.

Record BookMessage : Type := {
  book_Market : string; book_AssetID : string;
  book_Bids : list OrderSummary; book_Asks : list OrderSummary;
  book_Hash : string; book_Timestamp : string }.

Record PriceChange : Type := {
  pc_Side : string; pc_Price : string; pc_Size : string;
  pc_BestBid : string; pc_BestAsk : string }.

Record PriceChangeMessage : Type := {
  pcm_Market : string; pcm_PriceChanges : list PriceChange }.

Record TickSizeChangeMessage : Type := {
  ts_Market : string; ts_OldTickSize : string; ts_NewTickSize : string }.

Record LastTradePriceMessage : Type := {
  lt_Market : string; lt_Side : string; lt_Price : string; lt_Size : string }.

(** Modelled from the spec: the [MarketChannelMessage] interface of the
    [types] package is not part of the sources at hand; the decoded event is
    the tagged union over the four variants of section 3. *)
Inductive MarketChannelMessage : Type :=
| MsgBook (m : BookMessage)
| MsgPriceChange (m : PriceChangeMessage)
| MsgTickSizeChange (m : TickSizeChangeMessage)
| MsgLastTradePrice (m : LastTradePriceMessage).

Inductive EventType : Type :=
| EventTypeBook | EventTypePriceChange
| EventTypeTickSizeChange | EventTypeLastTradePrice.

(** Modelled from the spec: the variant-inspection half of the codec's
    interface, absent from the sources at hand. *)
Definition GetEventType (msg : MarketChannelMessage) : EventType :=
  match msg with
  | MsgBook _ => EventTypeBook
  | MsgPriceChange _ => EventTypePriceChange
  | MsgTickSizeChange _ => EventTypeTickSizeChange
  | MsgLastTradePrice _ => EventTypeLastTradePrice
  end.

(** Modelled from the spec: the down-casts of the codec's interface, absent
    from the sources at hand; [None] is the [ok = false] result. *)
Definition AsBookMessage (msg : MarketChannelMessage) : option BookMessage :=
  match msg with MsgBook m => Some m | _ => None end.

(** Modelled from the spec: down-cast to the price-change variant. *)
Definition AsPriceChangeMessage (msg : MarketChannelMessage) : option PriceChangeMessage :=
  match msg with MsgPriceChange m => Some m | _ => None end.

(** Modelled from the spec: down-cast to the tick-size variant. *)
Definition AsTickSizeChangeMessage (msg : MarketChannelMessage) : option TickSizeChangeMessage :=
  match msg with MsgTickSizeChange m => Some m | _ => None end.

(** Modelled from the spec: down-cast to the last-trade-price variant. *)
Definition AsLastTradePriceMessage (msg : MarketChannelMessage) : option LastTradePriceMessage :=
  match msg with MsgLastTradePrice m => Some m | _ => None end.

Fixpoint member (key : string) (members : list (string * JSON)) : option JSON :=
  match members with
  | [] => None
  | (k, v) :: rest => if String.eqb k key then Some v else member key rest
  end.

(** A string field: absent or [null] leaves the zero value, a value of
    another kind is a malformed payload. *)
Definition field_string (key : string) (members : list (string * JSON)) : option string :=
  match member key members with
  | None | Some JNull => Some ""
  | Some (JString s) => Some s
  | Some _ => None
  end.

Definition decode_level (v : JSON) : option OrderSummary :=
  match v with
  | JObject ms =>
      match field_string "price" ms, field_string "size" ms with
      | Some p, Some s => Some {| Price := p; Size := s |}
      | _, _ => None
      end
  | _ => None
  end.

Definition decode_change (v : JSON) : option PriceChange :=
  match v with
  | JObject ms =>
      match field_string "side" ms, field_string "price" ms, field_string "size" ms,
            field_string "best_bid" ms, field_string "best_ask" ms with
      | Some sd, Some p, Some s, Some bb, Some ba =>
          Some {| pc_Side := sd; pc_Price := p; pc_Size := s;
                  pc_BestBid := bb; pc_BestAsk := ba |}
      | _, _, _, _, _ => None
      end
  | _ => None
  end.

Fixpoint decode_all {A : Type} (f : JSON -> option A) (l : list JSON) : option (list A) :=
  match l with
  | [] => Some []
  | v :: rest =>
      match f v, decode_all f rest with
      | Some a, Some r => Some (a :: r)
      | _, _ => None
      end
  end.

Definition field_list {A : Type} (f : JSON -> option A) (key : string)
    (members : list (string * JSON)) : option (list A) :=
  match member key members with
  | None | Some JNull => Some []
  | Some (JArray l) => decode_all f l
  | Some _ => None
  end.

Definition decode_book (ms : list (string * JSON)) : option MarketChannelMessage :=
  match field_string "market" ms, field_string "asset_id" ms,
        field_list decode_level "bids" ms, field_list decode_level "asks" ms,
        field_string "hash" ms, field_string "timestamp" ms with
  | Some m, Some a, Some b, Some k, Some h, Some t =>
      Some (MsgBook {| book_Market := m; book_AssetID := a; book_Bids := b;
                       book_Asks := k; book_Hash := h; book_Timestamp := t |})
  | _, _, _, _, _, _ => None
  end.

Definition decode_price_change (ms : list (string * JSON)) : option MarketChannelMessage :=
  match field_string "market" ms, field_list decode_change "price_changes" ms with
  | Some m, Some c => Some (MsgPriceChange {| pcm_Market := m; pcm_PriceChanges := c |})
  | _, _ => None
  end.

Definition decode_tick_size_change (ms : list (string * JSON)) : option MarketChannelMessage :=
  match field_string "market" ms, field_string "old_tick_size" ms,
        field_string "new_tick_size" ms with
  | Some m, Some o, Some n =>
      Some (MsgTickSizeChange {| ts_Market := m; ts_OldTickSize := o; ts_NewTickSize := n |})
  | _, _, _ => None
  end.

Definition decode_last_trade_price (ms : list (string * JSON)) : option MarketChannelMessage :=
  match field_string "market" ms, field_string "side" ms,
        field_string "price" ms, field_string "size" ms with
  | Some m, Some sd, Some p, Some s =>
      Some (MsgLastTradePrice {| lt_Market := m; lt_Side := sd; lt_Price := p; lt_Size := s |})
  | _, _, _, _ => None
  end.

Definition or_malformed (r : option MarketChannelMessage) : error + MarketChannelMessage :=
  match r with
  | Some m => inr m
  | None => inl (ErrNew "malformed payload")
  end.

(** Modelled from the spec: [types.ParseMarketChannelMessage] is not part of
    the sources at hand.  Section 4.3: a known field names the event kind,
    an unknown or missing discriminator is a decode error, and the payload is
    decoded per kind; section 7: a malformed payload is a decode error. *)
Definition ParseMarketChannelMessage (data : Payload) : error + MarketChannelMessage :=
  match data with
  | Doc (JObject ms) =>
      match member "event_type" ms with
      | Some (JString kind) =>
          if String.eqb kind "book" then or_malformed (decode_book ms)
          else if String.eqb kind "price_change" then or_malformed (decode_price_change ms)
          else if String.eqb kind "tick_size_change" then or_malformed (decode_tick_size_change ms)
          else if String.eqb kind "last_trade_price" then or_malformed (decode_last_trade_price ms)
          else inl (ErrNew "unknown event type")
      | _ => inl (ErrNew "missing event type")
      end
  | _ => inl (ErrNew "malformed payload")
  end.

(** ** The client record *)

Record WebSocketClientOptions : Type := {
  AssetIDs : list string;
  Markets : list string;
  AutoReconnect : bool;
  ReconnectDelay : Z;
  MaxReconnectAttempts : Z;
  Debug : bool;
  ProxyUrl : string }.

(** The callbacks are functions of the caller; the record keeps which of
    them are registered (non-nil), their invocations go to the trace. *)
Record WebSocketCallbacks : Type := {
  OnBook : bool;
  OnPriceChange : bool;
  OnTickSizeChange : bool;
  OnLastTradePrice : bool;
  OnMessage : bool;
  OnError : bool;
  OnConnect : bool;
  OnDisconnect : bool;
  OnReconnect : bool }.

(** A transport handle, named by the dial that made it. *)
Definition Conn : Type := nat.

(** [sync.RWMutex]: free, held by a writer, or held by [S n] readers. *)
Inductive RWMutex : Type :=
| Free
| Writer
| Readers (n : nat).

(** A timer made by [time.AfterFunc]: its delay, the attempt number its
    closure captured, and whether it has fired already. *)
Record Timer : Type := { delay : Z; attempt : Z; fired : bool }.

(** A value of the subscribe message map. *)
Inductive Value : Type :=
| VStrings (l : list string)
| VString (s : string).

(** What the client does to the outside. *)
Inductive Event : Type :=
| DeriveApiKey
| Dial (url : string) (proxy : string)
| WriteJSON (c : Conn) (message : list (string * Value))
| WriteMessage (c : Conn) (text : string)
| Close (c : Conn)
| Go_handleMessages
| Go_pingLoop
| AfterFunc (d : Z) (n : Z)
| TimerStop
| TickerStop
| CallOnBook (m : BookMessage)
| CallOnPriceChange (m : PriceChangeMessage)
| CallOnTickSizeChange (m : TickSizeChangeMessage)
| CallOnLastTradePrice (m : LastTradePriceMessage)
| CallOnMessage (m : MarketChannelMessage)
| CallOnError (e : error)
| CallOnConnect
| CallOnDisconnect (code : Z) (reason : string)
| CallOnReconnect (n : Z).

(** An argument of [ws.log]. *)
Inductive LogArg : Type :=
| LStr (s : string)
| LInt (z : Z)
| LStrs (l : list string)
| LErr (e : error)
| LRaw (p : Payload).

(** The fields of the Go struct ([done] and [logger] apart, which no
    operation below reads), then the trace of events and the lines given to
    the debug logger, oldest first. *)
Record WebSocketClient : Type := {
  options : WebSocketClientOptions;
  callbacks : WebSocketCallbacks;
  conn : option Conn;
  pingTicker : bool;
  reconnectTimer : option Timer;
  reconnectAttempts : Z;
  isConnecting : bool;
  shouldReconnect : bool;
  mu : RWMutex;
  trace : list Event;
  logged : list (list LogArg) }.

(** What the outside answers during one operation: the credential
    provider, [url.Parse] on the configured proxy URL, the dialer, and the
    write on the transport; [IsUnexpectedCloseError] is part of a read. *)
Record World : Type := {
  derives : error + (string * string * string);
  parses : option error;
  dials : error + Conn;
  writes : option error }.

(** ** Field updates *)

Definition set_AssetIDs (l : list string) (o : WebSocketClientOptions) : WebSocketClientOptions :=
  {| AssetIDs := l; Markets := Markets o; AutoReconnect := AutoReconnect o;
     ReconnectDelay := ReconnectDelay o; MaxReconnectAttempts := MaxReconnectAttempts o;
     Debug := Debug o; ProxyUrl := ProxyUrl o |}.

Definition set_ReconnectDelay (d : Z) (o : WebSocketClientOptions) : WebSocketClientOptions :=
  {| AssetIDs := AssetIDs o; Markets := Markets o; AutoReconnect := AutoReconnect o;
     ReconnectDelay := d; MaxReconnectAttempts := MaxReconnectAttempts o;
     Debug := Debug o; ProxyUrl := ProxyUrl o |}.

Definition set_options (o : WebSocketClientOptions) (ws : WebSocketClient) : WebSocketClient :=
  {| options := o; callbacks := callbacks ws; conn := conn ws;
     pingTicker := pingTicker ws; reconnectTimer := reconnectTimer ws;
     reconnectAttempts := reconnectAttempts ws; isConnecting := isConnecting ws;
     shouldReconnect := shouldReconnect ws; mu := mu ws; trace := trace ws;
     logged := logged ws |}.

Definition set_callbacks (c : WebSocketCallbacks) (ws : WebSocketClient) : WebSocketClient :=
  {| options := options ws; callbacks := c; conn := conn ws;
     pingTicker := pingTicker ws; reconnectTimer := reconnectTimer ws;
     reconnectAttempts := reconnectAttempts ws; isConnecting := isConnecting ws;
     shouldReconnect := shouldReconnect ws; mu := mu ws; trace := trace ws;
     logged := logged ws |}.

Definition set_conn (c : option Conn) (ws : WebSocketClient) : WebSocketClient :=
  {| options := options ws; callbacks := callbacks ws; conn := c;
     pingTicker := pingTicker ws; reconnectTimer := reconnectTimer ws;
     reconnectAttempts := reconnectAttempts ws; isConnecting := isConnecting ws;
     shouldReconnect := shouldReconnect ws; mu := mu ws; trace := trace ws;
     logged := logged ws |}.

Definition set_pingTicker (b : bool) (ws : WebSocketClient) : WebSocketClient :=
  {| options := options ws; callbacks := callbacks ws; conn := conn ws;
     pingTicker := b; reconnectTimer := reconnectTimer ws;
     reconnectAttempts := reconnectAttempts ws; isConnecting := isConnecting ws;
     shouldReconnect := shouldReconnect ws; mu := mu ws; trace := trace ws;
     logged := logged ws |}.

Definition set_reconnectTimer (t : option Timer) (ws : WebSocketClient) : WebSocketClient :=
  {| options := options ws; callbacks := callbacks ws; conn := conn ws;
     pingTicker := pingTicker ws; reconnectTimer := t;
     reconnectAttempts := reconnectAttempts ws; isConnecting := isConnecting ws;
     shouldReconnect := shouldReconnect ws; mu := mu ws; trace := trace ws;
     logged := logged ws |}.

Definition set_reconnectAttempts (n : Z) (ws : WebSocketClient) : WebSocketClient :=
  {| options := options ws; callbacks := callbacks ws; conn := conn ws;
     pingTicker := pingTicker ws; reconnectTimer := reconnectTimer ws;
     reconnectAttempts := n; isConnecting := isConnecting ws;
     shouldReconnect := shouldReconnect ws; mu := mu ws; trace := trace ws;
     logged := logged ws |}.

Definition set_isConnecting (b : bool) (ws : WebSocketClient) : WebSocketClient :=
  {| options := options ws; callbacks := callbacks ws; conn := conn ws;
     pingTicker := pingTicker ws; reconnectTimer := reconnectTimer ws;
     reconnectAttempts := reconnectAttempts ws; isConnecting := b;
     shouldReconnect := shouldReconnect ws; mu := mu ws; trace := trace ws;
     logged := logged ws |}.

Definition set_shouldReconnect (b : bool) (ws : WebSocketClient) : WebSocketClient :=
  {| options := options ws; callbacks := callbacks ws; conn := conn ws;
     pingTicker := pingTicker ws; reconnectTimer := reconnectTimer ws;
     reconnectAttempts := reconnectAttempts ws; isConnecting := isConnecting ws;
     shouldReconnect := b; mu := mu ws; trace := trace ws;
     logged := logged ws |}.

Definition set_mu (m : RWMutex) (ws : WebSocketClient) : WebSocketClient :=
  {| options := options ws; callbacks := callbacks ws; conn := conn ws;
     pingTicker := pingTicker ws; reconnectTimer := reconnectTimer ws;
     reconnectAttempts := reconnectAttempts ws; isConnecting := isConnecting ws;
     shouldReconnect := shouldReconnect ws; mu := m; trace := trace ws;
     logged := logged ws |}.

Definition set_trace (t : list Event) (ws : WebSocketClient) : WebSocketClient :=
  {| options := options ws; callbacks := callbacks ws; conn := conn ws;
     pingTicker := pingTicker ws; reconnectTimer := reconnectTimer ws;
     reconnectAttempts := reconnectAttempts ws; isConnecting := isConnecting ws;
     shouldReconnect := shouldReconnect ws; mu := mu ws; trace := t;
     logged := logged ws |}.

Definition set_logged (l : list (list LogArg)) (ws : WebSocketClient) : WebSocketClient :=
  {| options := options ws; callbacks := callbacks ws; conn := conn ws;
     pingTicker := pingTicker ws; reconnectTimer := reconnectTimer ws;
     reconnectAttempts := reconnectAttempts ws; isConnecting := isConnecting ws;
     shouldReconnect := shouldReconnect ws; mu := mu ws; trace := trace ws;
     logged := l |}.

(** ** Computations over the client *)

(** An operation either returns a value and the client it leaves, or never
    returns because it waits for the mutex; the client it is stuck in is
    kept, the goroutine does nothing further. *)
Inductive Result (A : Type) : Type :=
| Ret (a : A) (ws : WebSocketClient)
| Blocked (ws : WebSocketClient).
Arguments Ret {A} a ws.
Arguments Blocked {A} ws.

Definition M (A : Type) : Type := WebSocketClient -> Result A.

Definition ret {A : Type} (a : A) : M A := fun ws => Ret a ws.

Definition bind {A B : Type} (c : M A) (k : A -> M B) : M B :=
  fun ws => match c ws with
            | Ret a ws' => k a ws'
            | Blocked ws' => Blocked ws'
            end.

Declare Scope go_scope.
Delimit Scope go_scope with go.
Notation "x <- c ;; k" := (bind c (fun x => k))
  (at level 61, c at next level, right associativity) : go_scope.
Notation "c ;; k" := (bind c (fun _ => k))
  (at level 61, right associativity) : go_scope.
Local Open Scope go_scope.

(** The client an operation ends in, returned or stuck. *)
Definition client_of {A : Type} (r : Result A) : WebSocketClient :=
  match r with Ret _ ws => ws | Blocked ws => ws end.

Definition returned {A : Type} (r : Result A) : option A :=
  match r with Ret a _ => Some a | Blocked _ => None end.

Definition read {A : Type} (f : WebSocketClient -> A) : M A := fun ws => Ret (f ws) ws.
Definition update (f : WebSocketClient -> WebSocketClient) : M unit := fun ws => Ret tt (f ws).
Definition emit (e : Event) : M unit := update (fun ws => set_trace (trace ws ++ [e]) ws).

(** [ws.mu.Lock()]: waits until nobody holds the mutex. *)
Definition Lock : M unit :=
  fun ws => match mu ws with
            | Free => Ret tt (set_mu Writer ws)
            | _ => Blocked ws
            end.

(** [ws.mu.Unlock()]. *)
Definition Unlock : M unit := update (set_mu Free).

(** [ws.mu.RLock()]: waits while a writer holds the mutex. *)
Definition RLock : M unit :=
  fun ws => match mu ws with
            | Free => Ret tt (set_mu (Readers 0) ws)
            | Readers n => Ret tt (set_mu (Readers (S n)) ws)
            | Writer => Blocked ws
            end.

(** [ws.mu.RUnlock()]. *)
Definition RUnlock : M unit :=
  update (fun ws => match mu ws with
                    | Readers (S n) => set_mu (Readers n) ws
                    | _ => set_mu Free ws
                    end).

Definition when (b : bool) (c : M unit) : M unit := if b then c else ret tt.

(** A [for _, x := range l] loop. *)
Fixpoint for_each {A : Type} (body : A -> M unit) (l : list A) : M unit :=
  match l with
  | [] => ret tt
  | x :: rest => body x ;; for_each body rest
  end.

(** ** The operations of [websocket_client.go] *)

Definition wsURL : string := "wss://ws-subscriptions-clob.polymarket.com".
Definition TextMessage : Z := 1.
Definition CloseNormalClosure : Z := 1000.
Definition second : Z := 1000000000.

Definition no_callbacks : WebSocketCallbacks :=
  {| OnBook := false; OnPriceChange := false; OnTickSizeChange := false;
     OnLastTradePrice := false; OnMessage := false; OnError := false;
     OnConnect := false; OnDisconnect := false; OnReconnect := false |}.

Definition zero_options : WebSocketClientOptions :=
  {| AssetIDs := []; Markets := []; AutoReconnect := false; ReconnectDelay := 0;
     MaxReconnectAttempts := 0; Debug := false; ProxyUrl := "" |}.

Definition NewWebSocketClient (opts : option WebSocketClientOptions) : WebSocketClient :=
  let options0 := match opts with Some o => o | None => zero_options end in
  let options1 :=
    if AutoReconnect options0 && (ReconnectDelay options0 =? 0)
    then set_ReconnectDelay (5 * second) options0
    else options0 in
  {| options := options1; callbacks := no_callbacks; conn := None;
     pingTicker := false; reconnectTimer := None; reconnectAttempts := 0;
     isConnecting := false; shouldReconnect := true; mu := Free;
     trace := []; logged := [] |}.

Definition On (cbs : WebSocketCallbacks) (ws : WebSocketClient) : WebSocketClient :=
  set_callbacks cbs ws.

Definition log (args : list LogArg) : M unit :=
  d <- read (fun ws => Debug (options ws)) ;;
  when d (update (fun ws => set_logged (logged ws ++ [LStr "[PolymarketWebSocket]" :: args]) ws)).

Definition IsConnected : M bool :=
  RLock ;;
  c <- read conn ;;
  RUnlock ;;
  ret (match c with Some _ => true | None => false end).

Definition sendSubscription (w : World) : M (option error) :=
  RLock ;;
  c <- read conn ;;
  assetIDs <- read (fun ws => AssetIDs (options ws)) ;;
  RUnlock ;;
  match c with
  | None => ret (Some (ErrNew "not connected"))
  | Some c =>
      let message := [("assets_ids", VStrings assetIDs); ("type", VString "market")] in
      log [LStr "Sending subscription:"; LStrs assetIDs] ;;
      emit (WriteJSON c message) ;;
      ret (writes w)
  end.

Definition Connect (w : World) : M (option error) :=
  Lock ;;
  connecting <- read isConnecting ;;
  c <- read conn ;;
  already <- (if connecting then ret true
              else match c with
                   | Some _ => IsConnected
                   | None => ret false
                   end) ;;
  if already then
    Unlock ;;
    log [LStr "Already connected or connecting"] ;;
    ret None
  else
    update (set_isConnecting true) ;;
    update (set_shouldReconnect true) ;;
    Unlock ;;
    emit DeriveApiKey ;;
    match derives w with
    | inl err =>
        Lock ;;
        update (set_isConnecting false) ;;
        Unlock ;;
        ret (Some (ErrWrap "failed to derive API key" err))
    | inr (key, _, _) =>
        log [LStr "API key derived:"; LStr key] ;;
        proxy <- read (fun ws => ProxyUrl (options ws)) ;;
        match (if String.eqb proxy "" then None else parses w) with
        | Some err => ret (Some (ErrWrap "failed to parse proxy url" err))
        | None =>
            emit (Dial (wsURL ++ "/ws/market") proxy) ;;
            match dials w with
            | inl err =>
                Lock ;;
                update (set_isConnecting false) ;;
                Unlock ;;
                ret (Some (ErrWrap "failed to connect to WebSocket" err))
            | inr new_conn =>
                Lock ;;
                update (set_conn (Some new_conn)) ;;
                update (set_isConnecting false) ;;
                update (set_reconnectAttempts 0) ;;
                Unlock ;;
                log [LStr "WebSocket connected"] ;;
                sent <- sendSubscription w ;;
                match sent with
                | Some err => ret (Some (ErrWrap "failed to send subscription" err))
                | None =>
                    emit Go_handleMessages ;;
                    emit Go_pingLoop ;;
                    cb <- read callbacks ;;
                    when (OnConnect cb) (emit CallOnConnect) ;;
                    ret None
                end
            end
        end
    end.

Definition cleanup : M unit :=
  Lock ;;
  ticker <- read pingTicker ;;
  when ticker (emit TickerStop ;; update (set_pingTicker false)) ;;
  timer <- read reconnectTimer ;;
  when (match timer with Some _ => true | None => false end)
       (emit TimerStop ;; update (set_reconnectTimer None)) ;;
  Unlock.

Definition Disconnect : M unit :=
  Lock ;;
  update (set_shouldReconnect false) ;;
  Unlock ;;
  cleanup ;;
  Lock ;;
  c <- read conn ;;
  match c with
  | Some c => emit (Close c) ;; update (set_conn None)
  | None => ret tt
  end ;;
  Unlock.

Definition Subscribe (assetIDs : list string) (w : World) : M (option error) :=
  Lock ;;
  update (fun ws => set_options (set_AssetIDs (AssetIDs (options ws) ++ assetIDs) (options ws)) ws) ;;
  Unlock ;;
  connected <- IsConnected ;;
  if connected then sendSubscription w else ret None.

(** The inner loop of [Unsubscribe]: [shouldKeep] after comparing [id]
    with the identifiers to remove, stopping at the first match. *)
Fixpoint shouldKeep (id : string) (assetIDs : list string) : bool :=
  match assetIDs with
  | [] => true
  | unsubID :: rest => if String.eqb id unsubID then false else shouldKeep id rest
  end.

(** The outer loop of [Unsubscribe], appending to [filtered]. *)
Fixpoint filter_loop (current assetIDs filtered : list string) : list string :=
  match current with
  | [] => filtered
  | id :: rest =>
      if shouldKeep id assetIDs
      then filter_loop rest assetIDs (filtered ++ [id])
      else filter_loop rest assetIDs filtered
  end.

Definition Unsubscribe (assetIDs : list string) : M unit :=
  Lock ;;
  current <- read (fun ws => AssetIDs (options ws)) ;;
  let filtered := filter_loop current assetIDs [] in
  update (fun ws => set_options (set_AssetIDs filtered (options ws)) ws) ;;
  Unlock.

Definition handleError (err : error) : M unit :=
  cb <- read callbacks ;;
  if OnError cb then emit (CallOnError err) else log [LStr "Error:"; LErr err].

Definition parseAndDispatch (data : Payload) : M unit :=
  match ParseMarketChannelMessage data with
  | inl err =>
      handleError (ErrWrap "failed to parse message" err) ;;
      log [LStr "Raw message:"; LRaw data]
  | inr msg =>
      cb <- read callbacks ;;
      match GetEventType msg with
      | EventTypeBook =>
          match AsBookMessage msg with
          | Some bookMsg => when (OnBook cb) (emit (CallOnBook bookMsg))
          | None => ret tt
          end
      | EventTypePriceChange =>
          match AsPriceChangeMessage msg with
          | Some pcMsg => when (OnPriceChange cb) (emit (CallOnPriceChange pcMsg))
          | None => ret tt
          end
      | EventTypeTickSizeChange =>
          match AsTickSizeChangeMessage msg with
          | Some tsMsg => when (OnTickSizeChange cb) (emit (CallOnTickSizeChange tsMsg))
          | None => ret tt
          end
      | EventTypeLastTradePrice =>
          match AsLastTradePriceMessage msg with
          | Some ltMsg => when (OnLastTradePrice cb) (emit (CallOnLastTradePrice ltMsg))
          | None => ret tt
          end
      end ;;
      when (OnMessage cb) (emit (CallOnMessage msg))
  end.

Definition processMessage (data : Payload) : M unit :=
  match json_Unmarshal_RawMessages data with
  | Some messages => for_each parseAndDispatch messages
  | None => parseAndDispatch data
  end.

Definition scheduleReconnect : M unit :=
  Lock ;;
  max <- read (fun ws => MaxReconnectAttempts (options ws)) ;;
  attempts <- read reconnectAttempts ;;
  if (0 <? max) && (max <=? attempts) then
    Unlock ;;
    log [LStr "Max reconnect attempts reached"]
  else
    update (set_reconnectAttempts (int_incr attempts)) ;;
    n <- read reconnectAttempts ;;
    d <- read (fun ws => ReconnectDelay (options ws)) ;;
    Unlock ;;
    log [LStr "Scheduling reconnect attempt "; LInt n; LStr "..."] ;;
    cb <- read callbacks ;;
    when (OnReconnect cb) (emit (CallOnReconnect n)) ;;
    Lock ;;
    emit (AfterFunc d n) ;;
    update (set_reconnectTimer (Some {| delay := d; attempt := n; fired := false |})) ;;
    Unlock.

(** The closure given to [time.AfterFunc] in [scheduleReconnect]. *)
Definition reconnect_closure (n : Z) (w : World) : M unit :=
  log [LStr "Attempting reconnect "; LInt n; LStr "..."] ;;
  r <- Connect w ;;
  match r with
  | Some err => log [LStr "Reconnect failed:"; LErr err]
  | None => ret tt
  end.

(** The runtime firing the armed timer, once. *)
Definition timer_fires (w : World) : M unit :=
  t <- read reconnectTimer ;;
  match t with
  | Some t =>
      if fired t then ret tt
      else
        update (set_reconnectTimer (Some {| delay := delay t; attempt := attempt t; fired := true |})) ;;
        reconnect_closure (attempt t) w
  | None => ret tt
  end.

Definition handleDisconnect (code : Z) (reason : string) : M unit :=
  cleanup ;;
  cb <- read callbacks ;;
  when (OnDisconnect cb) (emit (CallOnDisconnect code reason)) ;;
  RLock ;;
  should <- read shouldReconnect ;;
  auto <- read (fun ws => AutoReconnect (options ws)) ;;
  RUnlock ;;
  when (should && auto) scheduleReconnect.

(** What [conn.ReadMessage()] gives: a frame, or an error together with the
    answer of [websocket.IsUnexpectedCloseError] for it. *)
Inductive ReadResult : Type :=
| Frame (messageType : Z) (message : Payload)
| ReadError (unexpected : bool) (err : error).

(** How the [for] loop of [handleMessages] stands once the reads at hand are
    consumed: it has returned, or it waits in [ReadMessage]. *)
Inductive Loop : Type := Returned | Reading.

Fixpoint read_loop (reads : list ReadResult) : M Loop :=
  RLock ;;
  c <- read conn ;;
  RUnlock ;;
  match c with
  | None => ret Returned
  | Some _ =>
      match reads with
      | [] => ret Reading
      | ReadError unexpected err :: _ =>
          when unexpected (handleError (ErrWrap "WebSocket error" err)) ;;
          ret Returned
      | Frame messageType message :: rest =>
          (if messageType =? TextMessage then
             if is_PONG message then log [LStr "Received PONG"]
             else processMessage message
           else ret tt) ;;
          read_loop rest
      end
  end.

(** [handleMessages] over the reads the transport delivers; the deferred
    function runs when the loop returns. *)
Definition handleMessages (reads : list ReadResult) : M Loop :=
  l <- read_loop reads ;;
  match l with
  | Returned =>
      log [LStr "Message handler stopped"] ;;
      handleDisconnect CloseNormalClosure "Connection closed" ;;
      ret Returned
  | Reading => ret Reading
  end.

(** [pingLoop] over the ticks of its ticker, each with the world's answer
    to the write; [ws.done] is never closed, so only a failed write ends the
    loop, and the deferred [ticker.Stop()] runs then. *)
Fixpoint ping_ticks (ticks : list World) : M Loop :=
  match ticks with
  | [] => ret Reading
  | w :: rest =>
      RLock ;;
      c <- read conn ;;
      RUnlock ;;
      match c with
      | Some c =>
          emit (WriteMessage c "PING") ;;
          match writes w with
          | Some err => handleError (ErrWrap "failed to send ping" err) ;; ret Returned
          | None => log [LStr "Sent PING"] ;; ping_ticks rest
          end
      | None => ping_ticks rest
      end
  end.

Definition pingLoop (ticks : list World) : M Loop :=
  Lock ;;
  update (set_pingTicker true) ;;
  Unlock ;;
  l <- ping_ticks ticks ;;
  match l with
  | Returned => emit TickerStop ;; ret Returned
  | Reading => ret Reading
  end.

(** ** Specification-level functions *)

(** The list [Unsubscribe] leaves: the identifiers not to be removed, in
    their order. *)
Definition without (ids current : list string) : list string :=
  filter (fun id => negb (existsb (String.eqb id) ids)) current.

(** The asset list of a subscribe frame. *)
Definition frame_assets (e : Event) : option (list string) :=
  match e with
  | WriteJSON _ ((k, VStrings l) :: _) => if String.eqb k "assets_ids" then Some l else None
  | _ => None
  end.

(** The asset list of the subscribe frame written last in a trace. *)
Definition last_frame (t : list Event) : option (list string) :=
  fold_left (fun acc e => match frame_assets e with Some l => Some l | None => acc end) t None.

(** A call of the caller on the Subscription Set. *)
Inductive Call : Type :=
| CallSubscribe (ids : list string) (w : World)
| CallUnsubscribe (ids : list string).

Definition call (c : Call) : M unit :=
  match c with
  | CallSubscribe ids w => _ <- Subscribe ids w ;; ret tt
  | CallUnsubscribe ids => Unsubscribe ids
  end.

(** The Subscription Set after a sequence of calls: every [Subscribe]
    appends, every [Unsubscribe] filters. *)
Fixpoint set_after (l : list Call) (current : list string) : list string :=
  match l with
  | [] => current
  | CallSubscribe ids _ :: rest => set_after rest (current ++ ids)
  | CallUnsubscribe ids :: rest => set_after rest (without ids current)
  end.

(** Section 4.4: the type-specific callback if registered, then the general
    callback if registered. *)
Definition typed_call (cb : WebSocketCallbacks) (msg : MarketChannelMessage) : list Event :=
  match msg with
  | MsgBook m => if OnBook cb then [CallOnBook m] else []
  | MsgPriceChange m => if OnPriceChange cb then [CallOnPriceChange m] else []
  | MsgTickSizeChange m => if OnTickSizeChange cb then [CallOnTickSizeChange m] else []
  | MsgLastTradePrice m => if OnLastTradePrice cb then [CallOnLastTradePrice m] else []
  end.

Definition dispatch (cb : WebSocketCallbacks) (msg : MarketChannelMessage) : list Event :=
  typed_call cb msg ++ (if OnMessage cb then [CallOnMessage msg] else []).

(** The callbacks one raw message leads to: its dispatch when it decodes,
    the error callback when it does not. *)
Definition calls_for (cb : WebSocketCallbacks) (data : Payload) : list Event :=
  match ParseMarketChannelMessage data with
  | inr msg => dispatch cb msg
  | inl err => if OnError cb then [CallOnError (ErrWrap "failed to parse message" err)] else []
  end.

Definition is_error_call (e : Event) : bool :=
  match e with CallOnError _ => true | _ => false end.

Definition fails_to_decode (data : Payload) : bool :=
  match ParseMarketChannelMessage data with inl _ => true | inr _ => false end.

(** ** Clients and worlds to run the operations on *)

Definition all_callbacks : WebSocketCallbacks :=
  {| OnBook := true; OnPriceChange := true; OnTickSizeChange := true;
     OnLastTradePrice := true; OnMessage := true; OnError := true;
     OnConnect := true; OnDisconnect := true; OnReconnect := true |}.

Definition demo_options : WebSocketClientOptions :=
  {| AssetIDs := ["A"; "B"]; Markets := []; AutoReconnect := true;
     ReconnectDelay := 0; MaxReconnectAttempts := 3; Debug := false;
     ProxyUrl := "" |}.

(** A client as [websocket_simple.go] sets it up. *)
Definition demo_client : WebSocketClient :=
  On all_callbacks (NewWebSocketClient (Some demo_options)).

(** A world in which everything succeeds and the dial gives handle [c]. *)
Definition fair (c : Conn) : World :=
  {| derives := inr ("key", "secret", "passphrase"); parses := None;
     dials := inr c; writes := None |}.

(** A world in which the write on the transport fails. *)
Definition broken_pipe : World :=
  {| derives := inr ("key", "secret", "passphrase"); parses := None;
     dials := inr 1%nat; writes := Some (ErrExternal "write: broken pipe") |}.

(** The demo client after a successful [Connect]. *)
Definition connected_client : WebSocketClient := client_of (Connect (fair 1%nat) demo_client).

(** [ws'] is [ws] with a longer story: only the trace and the logged lines
    may differ. *)
Definition only_observed (ws ws' : WebSocketClient) : Prop :=
  ws' = set_logged (logged ws') (set_trace (trace ws') ws).

(** The last-trade-price event of the spec's example scenario. *)
Definition trade_frame : JSON :=
  JObject [("event_type", JString "last_trade_price"); ("market", JString "A");
           ("side", JString "BUY"); ("price", JString "0.42"); ("size", JString "10")].

Definition tick_frame : JSON :=
  JObject [("event_type", JString "tick_size_change"); ("market", JString "B");
           ("old_tick_size", JString "0.01"); ("new_tick_size", JString "0.001")].

(** An object whose discriminator names no event kind. *)
Definition unknown_frame : JSON :=
  JObject [("event_type", JString "heartbeat")].

(** A world whose credential provider has no wallet to sign with, the
    first error of [DeriveApiKey]. *)
Definition no_wallet : World :=
  {| derives := inl (ErrExternal "wallet is required to derive API key");
     parses := None; dials := inr 1%nat; writes := None |}.

Definition proxied_options : WebSocketClientOptions :=
  {| AssetIDs := ["A"; "B"]; Markets := []; AutoReconnect := true;
     ReconnectDelay := 0; MaxReconnectAttempts := 3; Debug := false;
     ProxyUrl := "://proxy:8080" |}.

(** The demo client, configured with a proxy URL that has no scheme. *)
Definition proxied_client : WebSocketClient :=
  On all_callbacks (NewWebSocketClient (Some proxied_options)).

(** A world in which [url.Parse] rejects the proxy URL. *)
Definition bad_proxy : World :=
  {| derives := inr ("key", "secret", "passphrase");
     parses := Some (ErrExternal "missing protocol scheme");
     dials := inr 1%nat; writes := None |}.

(** ** The client among its goroutines *)

(** What can happen to the client next: a call of its owner, the armed
    reconnect timer firing, a read-loop taking the reads the transport has
    for it, a heartbeat loop taking its ticks. *)
Inductive Step : Type :=
| StepConnect (w : World)
| StepTimer (w : World)
| StepDisconnect
| StepSubscribe (ids : list string) (w : World)
| StepUnsubscribe (ids : list string)
| StepIsConnected
| StepReadLoop (reads : list ReadResult)
| StepPingLoop (ticks : list World).

Definition step (s : Step) (ws : WebSocketClient) : WebSocketClient :=
  match s with
  | StepConnect w => client_of (Connect w ws)
  | StepTimer w => client_of (timer_fires w ws)
  | StepDisconnect => client_of (Disconnect ws)
  | StepSubscribe ids w => client_of (Subscribe ids w ws)
  | StepUnsubscribe ids => client_of (Unsubscribe ids ws)
  | StepIsConnected => client_of (IsConnected ws)
  | StepReadLoop reads => client_of (handleMessages reads ws)
  | StepPingLoop ticks => client_of (pingLoop ticks ws)
  end.

Definition steps (l : list Step) (ws : WebSocketClient) : WebSocketClient :=
  fold_left (fun ws s => step s ws) l ws.

(** The step is not a [Connect] whose dial succeeds. *)
Definition no_dial_success (s : Step) : bool :=
  match s with
  | StepConnect w | StepTimer w =>
      match dials w with inl _ => true | inr _ => false end
  | _ => true
  end.

Definition is_AfterFunc (e : Event) : bool :=
  match e with AfterFunc _ _ => true | _ => false end.

Definition is_reconnect_call (e : Event) : bool :=
  match e with CallOnReconnect _ => true | _ => false end.

(** How many events of a kind a trace holds. *)
Definition count (p : Event -> bool) (t : list Event) : Z :=
  Z.of_nat (length (filter p t)).

(** The reconnect budget: the counter stays between [L] and the maximum
    [N], and the reconnects scheduled and announced so far go with it. *)
Definition budget (N L K K' : Z) (cb : WebSocketCallbacks) (ws : WebSocketClient) : Prop :=
  MaxReconnectAttempts (options ws) = N /\
  callbacks ws = cb /\
  L <= reconnectAttempts ws <= N /\
  count is_AfterFunc (trace ws) = K + reconnectAttempts ws /\
  count is_reconnect_call (trace ws) =
    K' + (if OnReconnect cb then reconnectAttempts ws else 0).

(** An operation keeps a property of the client, whether it returns or
    blocks. *)
Definition keeps {A : Type} (P : WebSocketClient -> Prop) (c : M A) : Prop :=
  forall ws, P ws -> P (client_of (c ws)).

(** A world in which nothing answers the dial. *)
Definition unreachable : World :=
  {| derives := inr ("key", "secret", "passphrase"); parses := None;
     dials := inl (ErrExternal "dial tcp: connection refused"); writes := None |}.

Definition single_retry_options : WebSocketClientOptions :=
  {| AssetIDs := ["A"; "B"]; Markets := []; AutoReconnect := true;
     ReconnectDelay := 0; MaxReconnectAttempts := 1; Debug := false;
     ProxyUrl := "" |}.

(** A client allowed one reconnect attempt, after that attempt has failed:
    it was connected and disconnected by its owner, a new [Connect] failed
    to dial, the read-loop of the first connection then returned and
    scheduled the reconnect, whose dial failed as well. *)
Definition exhausted_client : WebSocketClient :=
  steps [StepConnect (fair 1%nat); StepDisconnect; StepConnect unreachable;
         StepReadLoop []; StepTimer unreachable]
    (On all_callbacks (NewWebSocketClient (Some single_retry_options))).

(** An operation started with the mutex in state [m1] returns, whatever
    the client is otherwise, and leaves the mutex in state [m2]. *)
Definition runs {A : Type} (m1 m2 : RWMutex) (c : M A) : Prop :=
  forall ws, mu ws = m1 -> exists a ws', c ws = Ret a ws' /\ mu ws' = m2.

(** A step other than [Connect], by the owner or by the reconnect timer. *)
Definition not_a_Connect (s : Step) : bool :=
  match s with
  | StepConnect _ | StepTimer _ => false
  | _ => true
  end.

(** What [handleDisconnect] does before it looks at the reconnect flags. *)
Definition disconnect_prefix (code : Z) (reason : string) : M unit :=
  cleanup ;;
  cb <- read callbacks ;;
  when (OnDisconnect cb) (emit (CallOnDisconnect code reason)).

(** [handleDisconnect] with the scheduling it ends in taken as a
    parameter; [handleDisconnect] is the instance at [scheduleReconnect]. *)
Definition handleDisconnect_then (k : M unit) (code : Z) (reason : string) : M unit :=
  cleanup ;;
  cb <- read callbacks ;;
  when (OnDisconnect cb) (emit (CallOnDisconnect code reason)) ;;
  RLock ;;
  should <- read shouldReconnect ;;
  auto <- read (fun ws => AutoReconnect (options ws)) ;;
  RUnlock ;;
  when (should && auto) k.

(** A step of a read-loop, of a heartbeat loop, or a call of the owner on
    the Subscription Set or on [IsConnected]: everything but [Connect] and
    [Disconnect]. *)
Definition keeps_the_handle (s : Step) : bool :=
  match s with
  | StepConnect _ | StepTimer _ | StepDisconnect => false
  | _ => true
  end.

(** ** Proof tools *)

(** Unfold an operation down to the client it leaves. *)
Ltac exec :=
  cbv [Connect Disconnect Subscribe Unsubscribe IsConnected sendSubscription
       cleanup handleError parseAndDispatch processMessage scheduleReconnect
       reconnect_closure timer_fires handleDisconnect handleMessages pingLoop
       log when bind ret read update emit Lock Unlock RLock RUnlock
       client_of returned] in *.

Ltac fields :=
  cbn [options callbacks conn pingTicker reconnectTimer reconnectAttempts
       isConnecting shouldReconnect mu trace logged
       set_options set_callbacks set_conn set_pingTicker set_reconnectTimer
       set_reconnectAttempts set_isConnecting set_shouldReconnect set_mu
       set_trace set_logged set_AssetIDs set_ReconnectDelay
       AssetIDs Markets AutoReconnect ReconnectDelay MaxReconnectAttempts
       Debug ProxyUrl] in *.

Ltac branch :=
  match goal with
  | |- context [match ?x with _ => _ end] => destruct x eqn:?
  end.

(** *** The loops of [Unsubscribe] are a filter *)

Lemma shouldKeep_existsb (id : string) (ids : list string) :
  shouldKeep id ids = negb (existsb (String.eqb id) ids).
Proof.
  induction ids as [|u ids IH]; simpl; [reflexivity|].
  destruct (String.eqb id u); simpl; [reflexivity | exact IH].
Qed.

Lemma shouldKeep_In (id : string) (ids : list string) :
  shouldKeep id ids = true <-> ~ In id ids.
Proof.
  induction ids as [|u ids IH]; simpl.
  - split; [intros _ [] | reflexivity].
  - destruct (String.eqb_spec id u) as [->|Hne].
    + split; [discriminate | intros H; exfalso; apply H; now left].
    + rewrite IH. split.
      * intros H [E|I]; [apply Hne; now symmetry | now apply H].
      * intros H I. apply H. now right.
Qed.

Lemma filter_loop_filter (current ids filtered : list string) :
  filter_loop current ids filtered = filtered ++ filter (fun id => shouldKeep id ids) current.
Proof.
  revert filtered.
  induction current as [|id rest IH]; intros filtered; simpl.
  - now rewrite app_nil_r.
  - destruct (shouldKeep id ids); rewrite IH; [now rewrite <- app_assoc | reflexivity].
Qed.

Lemma filter_twice {A : Type} (f : A -> bool) (l : list A) :
  filter f (filter f l) = filter f l.
Proof.
  induction l as [|a l IH]; simpl; [reflexivity|].
  destruct (f a) eqn:E; simpl; rewrite ?E, IH; reflexivity.
Qed.

Lemma filter_loop_without (current ids : list string) :
  filter_loop current ids [] = without ids current.
Proof.
  rewrite filter_loop_filter. simpl. unfold without.
  apply filter_ext. intros id. apply shouldKeep_existsb.
Qed.

Lemma Unsubscribe_runs (ids : list string) (ws : WebSocketClient) :
  mu ws = Free ->
  Unsubscribe ids ws =
    Ret tt (set_options (set_AssetIDs (without ids (AssetIDs (options ws))) (options ws)) ws).
Proof.
  intros Hmu. exec. rewrite Hmu. fields. rewrite filter_loop_without.
  destruct ws; fields. subst. reflexivity.
Qed.

(** C10: [Unsubscribe] returns with the Subscription Set filtered: every
    occurrence of a listed identifier is gone, the identifiers kept are
    those not listed, in their order; no other field changes and nothing is
    written to the trace; doing it again changes nothing. *)
Theorem Unsubscribe_removes_and_keeps_order (ids : list string) (ws : WebSocketClient) :
  mu ws = Free ->
  exists ws',
    Unsubscribe ids ws = Ret tt ws' /\
    AssetIDs (options ws') =
      filter (fun id => negb (existsb (String.eqb id) ids)) (AssetIDs (options ws)) /\
    (forall id, In id (AssetIDs (options ws')) <->
                In id (AssetIDs (options ws)) /\ ~ In id ids) /\
    ws' = set_options (set_AssetIDs (AssetIDs (options ws')) (options ws)) ws /\
    trace ws' = trace ws /\
    Unsubscribe ids ws' = Ret tt ws'.
Proof.
  intros Hmu. eexists. split; [apply Unsubscribe_runs, Hmu|].
  fields. split; [reflexivity|]. split; [|split; [reflexivity|split; [reflexivity|]]].
  - intros id. unfold without. rewrite filter_In, <- shouldKeep_existsb, shouldKeep_In.
    reflexivity.
  - rewrite Unsubscribe_runs by exact Hmu. fields. unfold without.
    rewrite filter_twice. reflexivity.
Qed.

Lemma Unsubscribe_removes_and_keeps_order_witness :
  mu demo_client = Free /\
  exists ws',
    Unsubscribe ["A"; "C"] demo_client = Ret tt ws' /\
    AssetIDs (options ws') = ["B"] /\
    trace ws' = trace demo_client /\
    Unsubscribe ["A"; "C"] ws' = Ret tt ws'.
Proof.
  split; [reflexivity|].
  destruct (Unsubscribe_removes_and_keeps_order ["A"; "C"] demo_client eq_refl)
    as (ws' & Hrun & Hids & _ & _ & Htr & Hagain).
  exists ws'. repeat split; assumption.
Defined.


(** *** Record bookkeeping *)

Lemma set_mu_back (m : RWMutex) (ws : WebSocketClient) :
  set_mu (mu ws) (set_mu m ws) = ws.
Proof. destruct ws; reflexivity. Qed.

Lemma set_logged_same (ws : WebSocketClient) : set_logged (logged ws) ws = ws.
Proof. destruct ws; reflexivity. Qed.

Lemma last_frame_snoc (t : list Event) (e : Event) :
  last_frame (t ++ [e]) =
    match frame_assets e with Some l => Some l | None => last_frame t end.
Proof. unfold last_frame. rewrite fold_left_app. reflexivity. Qed.

Lemma bind_Ret {A B : Type} (c : M A) (k : A -> M B) (ws ws' : WebSocketClient) (a : A) :
  c ws = Ret a ws' -> bind c k ws = k a ws'.
Proof. intros H. unfold bind. rewrite H. reflexivity. Qed.

Lemma bind_Blocked {A B : Type} (c : M A) (k : A -> M B) (ws ws' : WebSocketClient) :
  c ws = Blocked ws' -> bind c k ws = Blocked ws'.
Proof. intros H. unfold bind. rewrite H. reflexivity. Qed.

(** *** [Subscribe] *)

Lemma Subscribe_runs (ids : list string) (w : World) (ws : WebSocketClient) :
  mu ws = Free ->
  exists ws',
    Subscribe ids w ws =
      Ret (match conn ws with Some _ => writes w | None => None end) ws' /\
    AssetIDs (options ws') = AssetIDs (options ws) ++ ids /\
    trace ws' = trace ws ++
      match conn ws with
      | Some c => [WriteJSON c [("assets_ids", VStrings (AssetIDs (options ws) ++ ids));
                                ("type", VString "market")]]
      | None => []
      end /\
    mu ws' = Free /\ conn ws' = conn ws.
Proof.
  intros Hmu. exec. rewrite Hmu. fields.
  destruct (conn ws) eqn:Hc; fields; rewrite ?Hc; fields.
  - destruct (Debug (options ws)); fields; eexists; (split; [reflexivity|]); fields; auto.
  - eexists; (split; [reflexivity|]); fields. rewrite app_nil_r. auto.
Qed.

(** C3, as the code has it: while connected, [Subscribe] appends the
    identifiers, writes one subscribe frame with the whole updated list and
    returns the result of that write to its caller, a failure included; no
    callback is invoked, the error callback neither. *)
Theorem Subscribe_returns_the_write_result
    (ids : list string) (w : World) (ws : WebSocketClient) (c : Conn) :
  mu ws = Free -> conn ws = Some c ->
  exists ws',
    Subscribe ids w ws = Ret (writes w) ws' /\
    AssetIDs (options ws') = AssetIDs (options ws) ++ ids /\
    trace ws' = trace ws ++
      [WriteJSON c [("assets_ids", VStrings (AssetIDs (options ws) ++ ids));
                    ("type", VString "market")]].
Proof.
  intros Hmu Hc.
  destruct (Subscribe_runs ids w ws Hmu) as (ws' & Hrun & Hids & Htr & _).
  rewrite Hc in Hrun, Htr. exists ws'. auto.
Qed.

Lemma Subscribe_returns_the_write_result_witness :
  mu connected_client = Free /\ conn connected_client = Some 1%nat /\
  exists ws',
    Subscribe ["C"] broken_pipe connected_client =
      Ret (Some (ErrExternal "write: broken pipe")) ws' /\
    AssetIDs (options ws') = ["A"; "B"; "C"] /\
    trace ws' = trace connected_client ++
      [WriteJSON 1%nat [("assets_ids", VStrings ["A"; "B"; "C"]); ("type", VString "market")]].
Proof.
  split; [reflexivity|]. split; [reflexivity|].
  apply (Subscribe_returns_the_write_result ["C"] broken_pipe connected_client 1%nat);
    reflexivity.
Defined.

(** C3 as stated fails: with every callback registered and the write
    failing, [Subscribe] hands the write error to its caller and the error
    callback is not invoked. *)
Lemma Subscribe_send_error_is_returned :
  returned (Subscribe ["C"] broken_pipe connected_client) =
    Some (Some (ErrExternal "write: broken pipe")) /\
  OnError (callbacks connected_client) = true /\
  filter is_error_call (trace (client_of (Subscribe ["C"] broken_pipe connected_client))) = [].
Proof. vm_compute. repeat split. Qed.

(** *** Sequences of [Subscribe] and [Unsubscribe] *)

Lemma calls_run (l : list Call) (ws : WebSocketClient) :
  mu ws = Free ->
  exists ws',
    for_each call l ws = Ret tt ws' /\
    AssetIDs (options ws') = set_after l (AssetIDs (options ws)) /\
    mu ws' = Free /\ conn ws' = conn ws.
Proof.
  revert ws. induction l as [|c l IH]; intros ws Hmu.
  - exists ws. simpl. auto.
  - destruct c as [ids w|ids].
    + destruct (Subscribe_runs ids w ws Hmu) as (ws1 & Hrun & Hids & _ & Hmu1 & Hc1).
      destruct (IH ws1 Hmu1) as (ws' & Hrest & Hids' & Hmu' & Hc').
      exists ws'. simpl.
      rewrite (bind_Ret _ _ ws ws1 tt) by (unfold call; now rewrite (bind_Ret _ _ _ _ _ Hrun)).
      rewrite Hrest, Hids', Hids, Hc', Hc1. auto.
    + pose proof (Unsubscribe_runs ids ws Hmu) as Hrun.
      destruct (IH (set_options (set_AssetIDs (without ids (AssetIDs (options ws))) (options ws)) ws))
        as (ws' & Hrest & Hids' & Hmu' & Hc'); [exact Hmu|].
      exists ws'. simpl. rewrite (bind_Ret _ _ _ _ _ Hrun).
      rewrite Hrest, Hids', Hc'. auto.
Qed.

Lemma set_after_app (l1 l2 : list Call) (current : list string) :
  set_after (l1 ++ l2) current = set_after l2 (set_after l1 current).
Proof.
  revert current. induction l1 as [|c l1 IH]; intros current; simpl; [reflexivity|].
  destruct c; apply IH.
Qed.

Lemma for_each_app {A : Type} (body : A -> M unit) (l1 l2 : list A) (ws : WebSocketClient) :
  for_each body (l1 ++ l2) ws = (for_each body l1 ;; for_each body l2) ws.
Proof.
  revert ws. induction l1 as [|a l1 IH]; intros ws; simpl.
  - reflexivity.
  - unfold bind. destruct (body a ws) as [[] ws1|ws1]; [|reflexivity].
    rewrite IH. reflexivity.
Qed.

(** C2, as the code has it: over any sequence of calls made while
    connected the Subscription Set is the initial list with every
    [Subscribe] appending its identifiers (duplicates kept) and every
    [Unsubscribe] filtering its identifiers out; right after a [Subscribe]
    the subscribe frame written last lists exactly the current content, and
    an [Unsubscribe] that follows changes the set but writes no frame. *)
Theorem last_frame_is_the_set_after_Subscribe
    (l : list Call) (ids : list string) (w : World) (ws : WebSocketClient) (c : Conn) :
  mu ws = Free -> conn ws = Some c ->
  exists ws',
    for_each call (l ++ [CallSubscribe ids w]) ws = Ret tt ws' /\
    AssetIDs (options ws') = set_after (l ++ [CallSubscribe ids w]) (AssetIDs (options ws)) /\
    last_frame (trace ws') = Some (AssetIDs (options ws')) /\
    forall gone, exists ws'',
      Unsubscribe gone ws' = Ret tt ws'' /\
      AssetIDs (options ws'') = without gone (AssetIDs (options ws')) /\
      trace ws'' = trace ws'.
Proof.
  intros Hmu Hc.
  destruct (calls_run l ws Hmu) as (ws1 & Hrun1 & Hids1 & Hmu1 & Hc1).
  destruct (Subscribe_runs ids w ws1 Hmu1) as (ws' & Hrun & Hids & Htr & Hmu' & Hc').
  rewrite Hc1, Hc in Htr.
  exists ws'. split; [|split; [|split]].
  - rewrite for_each_app, (bind_Ret _ _ _ _ _ Hrun1). simpl.
    rewrite (bind_Ret _ _ ws1 ws' tt); [reflexivity|].
    unfold call. now rewrite (bind_Ret _ _ _ _ _ Hrun).
  - rewrite set_after_app. simpl. rewrite Hids, Hids1. reflexivity.
  - rewrite Htr, last_frame_snoc. simpl. rewrite Hids. reflexivity.
  - intros gone. eexists. split; [apply Unsubscribe_runs, Hmu'|]. split; reflexivity.
Qed.

Lemma last_frame_is_the_set_after_Subscribe_witness :
  mu connected_client = Free /\ conn connected_client = Some 1%nat /\
  exists ws',
    for_each call ([CallUnsubscribe ["A"]] ++ [CallSubscribe ["C"; "B"] (fair 1%nat)])
      connected_client = Ret tt ws' /\
    AssetIDs (options ws') =
      set_after ([CallUnsubscribe ["A"]] ++ [CallSubscribe ["C"; "B"] (fair 1%nat)])
        (AssetIDs (options connected_client)) /\
    last_frame (trace ws') = Some (AssetIDs (options ws')) /\
    forall gone, exists ws'',
      Unsubscribe gone ws' = Ret tt ws'' /\
      AssetIDs (options ws'') = without gone (AssetIDs (options ws')) /\
      trace ws'' = trace ws'.
Proof.
  split; [reflexivity|]. split; [reflexivity|].
  apply (last_frame_is_the_set_after_Subscribe
           [CallUnsubscribe ["A"]] ["C"; "B"] (fair 1%nat) connected_client 1%nat);
    reflexivity.
Defined.

(** C2 as stated fails twice: after [Subscribe(["C"])] then
    [Unsubscribe(["C"])] the frame written last still lists C while the set
    does not, and after [Subscribe(["A"])] on a set that holds A the frame
    lists A twice. *)
Lemma last_frame_differs_from_the_set :
  (let ws := client_of (for_each call [CallSubscribe ["C"] (fair 1%nat); CallUnsubscribe ["C"]]
                          connected_client) in
   last_frame (trace ws) = Some ["A"; "B"; "C"] /\ AssetIDs (options ws) = ["A"; "B"]) /\
  (let ws := client_of (for_each call [CallSubscribe ["A"] (fair 1%nat)] connected_client) in
   last_frame (trace ws) = Some ["A"; "B"; "A"] /\ ~ NoDup ["A"; "B"; "A"]).
Proof.
  split; [vm_compute; split; reflexivity|].
  cbv zeta. split; [vm_compute; reflexivity|].
  intros H. inversion H as [|x l Hin _]; subst. apply Hin. right. now left.
Qed.

(** *** Operations that only add to the trace and the log *)

Lemma only_observed_refl (ws : WebSocketClient) : only_observed ws ws.
Proof. unfold only_observed. destruct ws; reflexivity. Qed.

Lemma only_observed_trans (ws1 ws2 ws3 : WebSocketClient) :
  only_observed ws1 ws2 -> only_observed ws2 ws3 -> only_observed ws1 ws3.
Proof. unfold only_observed. intros H12 H23. rewrite H23, H12. reflexivity. Qed.

Lemma only_observed_fields (ws ws' : WebSocketClient) :
  only_observed ws ws' ->
  options ws' = options ws /\ callbacks ws' = callbacks ws /\ conn ws' = conn ws /\
  mu ws' = mu ws /\ reconnectAttempts ws' = reconnectAttempts ws /\
  isConnecting ws' = isConnecting ws /\ shouldReconnect ws' = shouldReconnect ws /\
  reconnectTimer ws' = reconnectTimer ws /\ pingTicker ws' = pingTicker ws.
Proof. unfold only_observed. intros H. rewrite H. fields. repeat split. Qed.

Lemma log_runs (args : list LogArg) (ws : WebSocketClient) :
  exists ws', log args ws = Ret tt ws' /\ trace ws' = trace ws /\ only_observed ws ws'.
Proof.
  exec. destruct ws as [o cb c p t n ic sr m tr lg]; fields. unfold only_observed.
  destruct (Debug o); eexists; (split; [reflexivity|]); split; reflexivity.
Qed.

Lemma handleError_runs (err : error) (ws : WebSocketClient) :
  exists ws',
    handleError err ws = Ret tt ws' /\
    trace ws' = trace ws ++ (if OnError (callbacks ws) then [CallOnError err] else []) /\
    only_observed ws ws'.
Proof.
  exec. destruct ws as [o cb c p t n ic sr m tr lg]; fields. unfold only_observed.
  destruct (OnError cb); fields; [|destruct (Debug o)];
    eexists; (split; [reflexivity|]); fields; rewrite ?app_nil_r; split; reflexivity.
Qed.

Lemma dispatch_runs (msg : MarketChannelMessage) (data : Payload) (ws : WebSocketClient) :
  ParseMarketChannelMessage data = inr msg ->
  exists ws',
    parseAndDispatch data ws = Ret tt ws' /\
    trace ws' = trace ws ++ dispatch (callbacks ws) msg /\
    only_observed ws ws'.
Proof.
  intros Hp. unfold parseAndDispatch. rewrite Hp. exec. unfold dispatch, only_observed.
  destruct ws as [o cb c p t n ic sr m tr lg]; fields.
  destruct msg; simpl;
    repeat match goal with
           | |- context [if ?b then _ else _] => destruct b
           end;
    eexists; (split; [reflexivity|]); fields;
    rewrite <- ?app_assoc, ?app_nil_r; split; reflexivity.
Qed.

Lemma parseAndDispatch_runs (data : Payload) (ws : WebSocketClient) :
  exists ws',
    parseAndDispatch data ws = Ret tt ws' /\
    trace ws' = trace ws ++ calls_for (callbacks ws) data /\
    only_observed ws ws'.
Proof.
  unfold calls_for. destruct (ParseMarketChannelMessage data) as [err|msg] eqn:Hp.
  - unfold parseAndDispatch. rewrite Hp.
    destruct (handleError_runs (ErrWrap "failed to parse message" err) ws)
      as (ws1 & Hrun1 & Htr1 & Hob1).
    destruct (log_runs [LStr "Raw message:"; LRaw data] ws1) as (ws2 & Hrun2 & Htr2 & Hob2).
    exists ws2. rewrite (bind_Ret _ _ _ _ _ Hrun1), Hrun2, Htr2, Htr1.
    split; [reflexivity|]. split; [reflexivity|].
    eapply only_observed_trans; eassumption.
  - apply dispatch_runs, Hp.
Qed.

Lemma for_each_parseAndDispatch_runs (l : list Payload) (ws : WebSocketClient) :
  exists ws',
    for_each parseAndDispatch l ws = Ret tt ws' /\
    trace ws' = trace ws ++ flat_map (calls_for (callbacks ws)) l /\
    only_observed ws ws'.
Proof.
  revert ws. induction l as [|data l IH]; intros ws.
  - exists ws. simpl. rewrite app_nil_r. auto using only_observed_refl.
  - destruct (parseAndDispatch_runs data ws) as (ws1 & Hrun1 & Htr1 & Hob1).
    destruct (IH ws1) as (ws' & Hrun & Htr & Hob).
    exists ws'. simpl. rewrite (bind_Ret _ _ _ _ _ Hrun1), Hrun, Htr, Htr1.
    destruct (only_observed_fields _ _ Hob1) as (_ & -> & _).
    rewrite app_assoc. split; [reflexivity|]. split; [reflexivity|].
    eapply only_observed_trans; eassumption.
Qed.

Lemma processMessage_runs (data : Payload) (ws : WebSocketClient) :
  exists ws',
    processMessage data ws = Ret tt ws' /\
    trace ws' = trace ws ++
      match json_Unmarshal_RawMessages data with
      | Some messages => flat_map (calls_for (callbacks ws)) messages
      | None => calls_for (callbacks ws) data
      end /\
    only_observed ws ws'.
Proof.
  unfold processMessage. destruct (json_Unmarshal_RawMessages data).
  - apply for_each_parseAndDispatch_runs.
  - apply parseAndDispatch_runs.
Qed.

(** *** One turn of the read-loop *)

Lemma unlocked (m : RWMutex) (ws : WebSocketClient) :
  mu ws = Free -> set_mu Free (set_mu m ws) = ws.
Proof. intros H. rewrite <- H. apply set_mu_back. Qed.

Lemma read_loop_unfold (reads : list ReadResult) (ws : WebSocketClient) :
  mu ws = Free ->
  read_loop reads ws =
    match conn ws with
    | None => Ret Returned ws
    | Some _ =>
        match reads with
        | [] => Ret Reading ws
        | ReadError unexpected err :: _ =>
            (when unexpected (handleError (ErrWrap "WebSocket error" err)) ;; ret Returned) ws
        | Frame messageType message :: rest =>
            ((if messageType =? TextMessage then
                if is_PONG message then log [LStr "Received PONG"]
                else processMessage message
              else ret tt) ;; read_loop rest) ws
        end
    end.
Proof.
  intros Hmu.
  destruct reads as [|[mt msg|u err] rest]; cbn [read_loop];
    unfold bind at 1, RLock; rewrite Hmu;
    unfold bind at 1, read; unfold bind at 1, RUnlock, update; fields;
    rewrite (unlocked _ _ Hmu); destruct (conn ws); reflexivity.
Qed.

Lemma handleMessages_text_frame
    (message : Payload) (rest : list ReadResult) (ws ws' : WebSocketClient) (c : Conn) :
  mu ws = Free -> conn ws = Some c -> is_PONG message = false ->
  processMessage message ws = Ret tt ws' ->
  handleMessages (Frame TextMessage message :: rest) ws = handleMessages rest ws'.
Proof.
  intros Hmu Hc Hpong Hrun. unfold handleMessages.
  unfold bind at 1. rewrite (read_loop_unfold _ _ Hmu), Hc.
  change (TextMessage =? TextMessage) with true. cbv iota. rewrite Hpong.
  rewrite (bind_Ret _ _ _ _ _ Hrun). reflexivity.
Qed.

Lemma handleMessages_waits (ws : WebSocketClient) (c : Conn) :
  mu ws = Free -> conn ws = Some c -> handleMessages [] ws = Ret Reading ws.
Proof.
  intros Hmu Hc. unfold handleMessages, bind.
  rewrite (read_loop_unfold _ _ Hmu), Hc. reflexivity.
Qed.

Lemma decoded_is_an_object (data : Payload) (msg : MarketChannelMessage) :
  ParseMarketChannelMessage data = inr msg ->
  is_PONG data = false /\ json_Unmarshal_RawMessages data = None.
Proof.
  destruct data as [text|[]]; simpl; try discriminate. auto.
Qed.

Lemma dispatch_has_no_error_call (cb : WebSocketCallbacks) (msg : MarketChannelMessage) :
  filter is_error_call (dispatch cb msg) = [].
Proof.
  unfold dispatch. destruct msg; simpl;
    repeat match goal with
           | |- context [if ?b then _ else _] => destruct b
           end; reflexivity.
Qed.

Lemma error_calls_of_messages (cb : WebSocketCallbacks) (l : list Payload) :
  OnError cb = true ->
  length (filter is_error_call (flat_map (calls_for cb) l)) =
  length (filter fails_to_decode l).
Proof.
  intros Hcb. induction l as [|data l IH]; simpl; [reflexivity|].
  rewrite filter_app, length_app, IH.
  unfold calls_for, fails_to_decode.
  destruct (ParseMarketChannelMessage data).
  - rewrite Hcb. reflexivity.
  - rewrite dispatch_has_no_error_call. reflexivity.
Qed.

(** *** Frames in the read-loop *)

Lemma flat_map_Doc {B : Type} (f : Payload -> list B) (l : list JSON) :
  flat_map f (map Doc l) = flat_map (fun e => f (Doc e)) l.
Proof. induction l as [|e l IH]; simpl; [reflexivity | now rewrite IH]. Qed.

(** C9: a text frame whose payload is PONG leads to no callback at all; the
    read-loop goes on with the next read from a client that differs at most
    by a debug log line. *)
Theorem PONG_is_discarded (rest : list ReadResult) (ws : WebSocketClient) :
  mu ws = Free ->
  exists ws',
    handleMessages (Frame TextMessage (NotJSON "PONG") :: rest) ws = handleMessages rest ws' /\
    trace ws' = trace ws /\
    only_observed ws ws'.
Proof.
  intros Hmu. destruct (conn ws) as [c|] eqn:Hc.
  - destruct (log_runs [LStr "Received PONG"] ws) as (ws' & Hrun & Htr & Hob).
    exists ws'. split; [|auto].
    unfold handleMessages. unfold bind at 1.
    rewrite (read_loop_unfold _ _ Hmu), Hc.
    change (TextMessage =? TextMessage) with true.
    change (is_PONG (NotJSON "PONG")) with true. cbv iota.
    rewrite (bind_Ret _ _ _ _ _ Hrun). reflexivity.
  - exists ws. split; [|auto using only_observed_refl].
    unfold handleMessages, bind.
    rewrite !(read_loop_unfold _ _ Hmu), Hc. reflexivity.
Qed.

Lemma PONG_is_discarded_witness :
  mu connected_client = Free /\
  exists ws',
    handleMessages (Frame TextMessage (NotJSON "PONG") :: [Frame TextMessage (Doc trade_frame)])
      connected_client = handleMessages [Frame TextMessage (Doc trade_frame)] ws' /\
    trace ws' = trace connected_client /\
    only_observed connected_client ws'.
Proof.
  split; [reflexivity|].
  apply (PONG_is_discarded [Frame TextMessage (Doc trade_frame)] connected_client).
  reflexivity.
Defined.

(** C7, as the code has it: with the error callback registered and the
    client connected, a text frame other than PONG that is neither a JSON
    array nor null and does not decode invokes the error callback exactly
    once and nothing else, and the read-loop goes on, so that a valid frame
    after it is dispatched as usual; a JSON array frame invokes the error
    callback once for each of its elements that does not decode. *)
Theorem decode_error_is_reported_and_skipped (ws : WebSocketClient) (c : Conn) :
  mu ws = Free -> conn ws = Some c -> OnError (callbacks ws) = true ->
  (forall message err rest,
     is_PONG message = false -> json_Unmarshal_RawMessages message = None ->
     ParseMarketChannelMessage message = inl err ->
     exists ws',
       trace ws' = trace ws ++ [CallOnError (ErrWrap "failed to parse message" err)] /\
       only_observed ws ws' /\
       handleMessages (Frame TextMessage message :: rest) ws = handleMessages rest ws' /\
       forall good msg,
         ParseMarketChannelMessage good = inr msg ->
         exists ws'',
           handleMessages [Frame TextMessage message; Frame TextMessage good] ws =
             Ret Reading ws'' /\
           trace ws'' = trace ws' ++ dispatch (callbacks ws) msg) /\
  (forall elements rest,
     exists ws',
       handleMessages (Frame TextMessage (Doc (JArray elements)) :: rest) ws =
         handleMessages rest ws' /\
       length (filter is_error_call (trace ws')) =
         (length (filter is_error_call (trace ws)) +
          length (filter fails_to_decode (map Doc elements)))%nat).
Proof.
  intros Hmu Hc Hcb. split.
  - intros message err rest Hpong Harr Hp.
    destruct (processMessage_runs message ws) as (ws' & Hrun & Htr & Hob).
    rewrite Harr in Htr. unfold calls_for in Htr. rewrite Hp, Hcb in Htr.
    exists ws'. split; [exact Htr|]. split; [exact Hob|].
    split; [apply (handleMessages_text_frame _ _ _ _ c); assumption|].
    intros good msg Hgood.
    destruct (only_observed_fields _ _ Hob) as (_ & Hcb' & Hc' & Hmu' & _).
    rewrite Hc in Hc'. rewrite Hmu in Hmu'.
    destruct (decoded_is_an_object _ _ Hgood) as [Hpong2 Harr2].
    destruct (processMessage_runs good ws') as (ws'' & Hrun2 & Htr2 & Hob2).
    rewrite Harr2 in Htr2. unfold calls_for in Htr2. rewrite Hgood, Hcb' in Htr2.
    destruct (only_observed_fields _ _ Hob2) as (_ & _ & Hc'' & Hmu'' & _).
    rewrite Hc' in Hc''. rewrite Hmu' in Hmu''.
    exists ws''. split; [|exact Htr2].
    rewrite (handleMessages_text_frame _ _ _ _ c Hmu Hc Hpong Hrun).
    rewrite (handleMessages_text_frame _ _ _ _ c Hmu' Hc' Hpong2 Hrun2).
    apply (handleMessages_waits _ c); assumption.
  - intros elements rest.
    destruct (processMessage_runs (Doc (JArray elements)) ws) as (ws' & Hrun & Htr & _).
    exists ws'. split.
    + apply (handleMessages_text_frame _ _ _ _ c); auto.
    + rewrite Htr. cbn [json_Unmarshal_RawMessages].
      rewrite filter_app, length_app, error_calls_of_messages by exact Hcb.
      reflexivity.
Qed.

Lemma decode_error_is_reported_and_skipped_witness :
  mu connected_client = Free /\ conn connected_client = Some 1%nat /\
  OnError (callbacks connected_client) = true /\
  exists ws',
    trace ws' = trace connected_client ++
      [CallOnError (ErrWrap "failed to parse message" (ErrNew "unknown event type"))] /\
    handleMessages [Frame TextMessage (Doc unknown_frame)] connected_client =
      handleMessages [] ws'.
Proof.
  split; [reflexivity|]. split; [reflexivity|]. split; [reflexivity|].
  destruct (decode_error_is_reported_and_skipped connected_client 1%nat
              eq_refl eq_refl eq_refl) as [single _].
  destruct (single (Doc unknown_frame) (ErrNew "unknown event type") []
              eq_refl eq_refl eq_refl) as (ws' & Htr & _ & Hloop & _).
  exists ws'. split; assumption.
Defined.

(** C7 as stated fails on array frames: the frame [[1, 2]] does not decode
    into a message and invokes the error callback twice, the frame [[]]
    does not decode either and invokes it not at all. *)
Lemma array_frames_do_not_report_once :
  OnError (callbacks connected_client) = true /\
  fails_to_decode (Doc (JArray [JNumber "1"; JNumber "2"])) = true /\
  length (filter is_error_call
            (trace (client_of (handleMessages
                                 [Frame TextMessage (Doc (JArray [JNumber "1"; JNumber "2"]))]
                                 connected_client)))) = 2%nat /\
  fails_to_decode (Doc (JArray [])) = true /\
  length (filter is_error_call
            (trace (client_of (handleMessages [Frame TextMessage (Doc (JArray []))]
                                 connected_client)))) = 0%nat.
Proof. vm_compute. repeat split. Qed.

(** C8: a text frame that is a JSON array is taken element by element, in
    array order, each element leading to the callbacks it would lead to
    alone; two valid events give their two dispatches, first then second. *)
Theorem array_frame_is_dispatched_in_order
    (elements : list JSON) (rest : list ReadResult) (ws : WebSocketClient) (c : Conn) :
  mu ws = Free -> conn ws = Some c ->
  exists ws',
    handleMessages (Frame TextMessage (Doc (JArray elements)) :: rest) ws =
      handleMessages rest ws' /\
    trace ws' = trace ws ++ flat_map (fun e => calls_for (callbacks ws) (Doc e)) elements /\
    only_observed ws ws' /\
    forall a b m1 m2,
      elements = [a; b] ->
      ParseMarketChannelMessage (Doc a) = inr m1 ->
      ParseMarketChannelMessage (Doc b) = inr m2 ->
      trace ws' = trace ws ++ dispatch (callbacks ws) m1 ++ dispatch (callbacks ws) m2.
Proof.
  intros Hmu Hc.
  destruct (processMessage_runs (Doc (JArray elements)) ws) as (ws' & Hrun & Htr & Hob).
  cbn [json_Unmarshal_RawMessages] in Htr. rewrite flat_map_Doc in Htr.
  exists ws'. split; [apply (handleMessages_text_frame _ _ _ _ c); auto|].
  split; [exact Htr|]. split; [exact Hob|].
  intros a b m1 m2 -> Ha Hb. rewrite Htr. simpl. unfold calls_for.
  rewrite Ha, Hb, app_nil_r. reflexivity.
Qed.

Lemma array_frame_is_dispatched_in_order_witness :
  mu connected_client = Free /\ conn connected_client = Some 1%nat /\
  exists ws',
    handleMessages [Frame TextMessage (Doc (JArray [trade_frame; tick_frame]))] connected_client =
      handleMessages [] ws' /\
    trace ws' = trace connected_client ++
      flat_map (fun e => calls_for (callbacks connected_client) (Doc e)) [trade_frame; tick_frame].
Proof.
  split; [reflexivity|]. split; [reflexivity|].
  destruct (array_frame_is_dispatched_in_order [trade_frame; tick_frame] []
              connected_client 1%nat eq_refl eq_refl) as (ws' & Hloop & Htr & _).
  exists ws'. split; assumption.
Defined.

(** The two-event array of the spec, run. *)
Example two_events_two_dispatches :
  trace (client_of (handleMessages
                      [Frame TextMessage (Doc (JArray [trade_frame; tick_frame]))]
                      connected_client)) =
  trace connected_client ++
  [CallOnLastTradePrice {| lt_Market := "A"; lt_Side := "BUY"; lt_Price := "0.42"; lt_Size := "10" |};
   CallOnMessage (MsgLastTradePrice
     {| lt_Market := "A"; lt_Side := "BUY"; lt_Price := "0.42"; lt_Size := "10" |});
   CallOnTickSizeChange {| ts_Market := "B"; ts_OldTickSize := "0.01"; ts_NewTickSize := "0.001" |};
   CallOnMessage (MsgTickSizeChange
     {| ts_Market := "B"; ts_OldTickSize := "0.01"; ts_NewTickSize := "0.001" |})].
Proof. vm_compute. reflexivity. Qed.

(** Settle [lhs = rhs] where [lhs] runs an operation on a client given by
    its fields: evaluate [lhs], then compare the lists up to the nesting of
    their appends. *)
Ltac by_running :=
  match goal with
  | |- ?lhs = _ =>
      let v := eval cbv -[app] in lhs in
      let E := fresh "E" in
      assert (E : lhs = v) by (vm_compute; reflexivity);
      rewrite E; clear E; rewrite <- ?app_assoc; reflexivity
  end.

(** The client an operation ends in is the one it is run to. *)
Ltac conjuncts := repeat match goal with |- _ /\ _ => split end.

Ltac run_it :=
  match goal with
  | |- exists ws', ?run = Ret _ ws' /\ _ => exists (client_of run)
  end.

(** *** [Connect] *)

(** While a connect is in flight, that is while [isConnecting] is set,
    [Connect] returns success at once: it derives nothing, dials nothing
    and writes nothing, whatever the world. *)
Lemma Connect_while_connecting (w : World) (ws : WebSocketClient) :
  mu ws = Free -> isConnecting ws = true ->
  exists ws', Connect w ws = Ret None ws' /\ trace ws' = trace ws /\ only_observed ws ws'.
Proof.
  intros Hmu Hic. exec. rewrite Hmu. fields. rewrite Hic. fields.
  rewrite (unlocked _ _ Hmu).
  destruct (log_runs [LStr "Already connected or connecting"] ws) as (ws' & Hrun & Htr & Hob).
  exec. exists ws'. destruct (Debug (options ws)); inversion Hrun; subst ws'; auto.
Qed.

(** With a handle in place [Connect] takes the write lock and then asks
    [IsConnected], which waits for a read lock: it never returns. *)
Lemma Connect_waits_for_itself (w : World) (ws : WebSocketClient) (c : Conn) :
  mu ws = Free -> isConnecting ws = false -> conn ws = Some c ->
  Connect w ws = Blocked (set_mu Writer ws).
Proof.
  intros Hmu Hic Hc. exec. rewrite Hmu. fields. rewrite Hic, Hc. fields. reflexivity.
Qed.

(** C4, as the code has it: [Connect] asks the credential provider first
    and fails, before any dial, when the derivation fails; when it succeeds
    the triple goes to a debug log line only, and the subscribe frame holds
    the asset list and the channel type whatever the credentials are. *)
Theorem Connect_derives_and_sends_no_credentials (w : World) (ws : WebSocketClient) :
  mu ws = Free -> isConnecting ws = false -> conn ws = None ->
  (forall err,
     derives w = inl err ->
     exists ws',
       Connect w ws = Ret (Some (ErrWrap "failed to derive API key" err)) ws' /\
       trace ws' = trace ws ++ [DeriveApiKey] /\
       conn ws' = None) /\
  (forall creds c,
     derives w = inr creds ->
     ProxyUrl (options ws) = "" \/ parses w = None ->
     dials w = inr c ->
     exists ws',
       Connect w ws =
         Ret (option_map (ErrWrap "failed to send subscription") (writes w)) ws' /\
       trace ws' = trace ws ++
         [DeriveApiKey;
          Dial (wsURL ++ "/ws/market") (ProxyUrl (options ws));
          WriteJSON c [("assets_ids", VStrings (AssetIDs (options ws)));
                       ("type", VString "market")]] ++
         match writes w with
         | None => [Go_handleMessages; Go_pingLoop] ++
                   (if OnConnect (callbacks ws) then [CallOnConnect] else [])
         | Some _ => []
         end).
Proof.
  intros Hmu Hic Hc.
  destruct ws as [[ids mk ar rd mx dbg px] [b1 b2 b3 b4 b5 b6 oc b8 b9] c0 p t n ic sr m tr lg].
  destruct w as [dv ps dl wr]. simpl in Hmu, Hic, Hc. subst m ic c0. split.
  - intros err Hd. simpl in Hd. subst dv.
    run_it.
    split; [vm_compute; reflexivity|]. split; vm_compute; reflexivity.
  - intros [[key secret] pass] c Hd Hproxy Hdial. simpl in Hd, Hproxy, Hdial. subst dv dl.
    run_it.
    destruct Hproxy as [-> | ->]; [|destruct px];
      destruct dbg, oc, wr as [e|];
      (split; [vm_compute; reflexivity | by_running]).
Qed.

Lemma Connect_derives_and_sends_no_credentials_witness :
  mu demo_client = Free /\ isConnecting demo_client = false /\ conn demo_client = None /\
  (exists ws',
     Connect no_wallet demo_client =
       Ret (Some (ErrWrap "failed to derive API key"
                    (ErrExternal "wallet is required to derive API key"))) ws' /\
     trace ws' = trace demo_client ++ [DeriveApiKey] /\
     conn ws' = None) /\
  (exists ws',
     Connect (fair 1%nat) demo_client = Ret None ws' /\
     trace ws' =
       [DeriveApiKey;
        Dial (wsURL ++ "/ws/market") "";
        WriteJSON 1%nat [("assets_ids", VStrings ["A"; "B"]); ("type", VString "market")];
        Go_handleMessages; Go_pingLoop; CallOnConnect]).
Proof.
  split; [reflexivity|]. split; [reflexivity|]. split; [reflexivity|]. split.
  - destruct (Connect_derives_and_sends_no_credentials no_wallet demo_client
                eq_refl eq_refl eq_refl) as [fails _].
    exact (fails _ eq_refl).
  - destruct (Connect_derives_and_sends_no_credentials (fair 1%nat) demo_client
                eq_refl eq_refl eq_refl) as [_ succeeds].
    exact (succeeds ("key", "secret", "passphrase") 1%nat eq_refl (or_introl eq_refl) eq_refl).
Defined.

(** C4 as stated fails: on the market channel a failing credential
    derivation makes [Connect] fail, before it dials. *)
Lemma Connect_fails_without_credentials :
  returned (Connect no_wallet demo_client) =
    Some (Some (ErrWrap "failed to derive API key"
                  (ErrExternal "wallet is required to derive API key"))) /\
  trace (client_of (Connect no_wallet demo_client)) = [DeriveApiKey] /\
  conn (client_of (Connect no_wallet demo_client)) = None.
Proof. conjuncts; vm_compute; reflexivity. Qed.

(** C5 at the malformed proxy URL: [Connect] returns the parse error and
    leaves [isConnecting] set, so that every later [Connect], whatever the
    world answers, returns success at once without deriving or dialing;
    from the initial client the same world dials. *)
Theorem Connect_is_stuck_after_a_bad_proxy_url (w : World) :
  let failed := Connect bad_proxy proxied_client in
  returned failed =
    Some (Some (ErrWrap "failed to parse proxy url" (ErrExternal "missing protocol scheme"))) /\
  isConnecting (client_of failed) = true /\
  conn (client_of failed) = None /\
  trace (client_of failed) = [DeriveApiKey] /\
  Connect w (client_of failed) = Ret None (client_of failed) /\
  trace (client_of (Connect (fair 1%nat) demo_client)) =
    [DeriveApiKey;
     Dial (wsURL ++ "/ws/market") "";
     WriteJSON 1%nat [("assets_ids", VStrings ["A"; "B"]); ("type", VString "market")];
     Go_handleMessages; Go_pingLoop; CallOnConnect].
Proof. cbv zeta. conjuncts; vm_compute; reflexivity. Qed.

(** C1 at a transport drop: the read-loop ends on a read error, the
    reconnect is scheduled and its timer fires, but the handle of the lost
    connection is still in place, so the [Connect] of the timer waits for
    the mutex it holds itself: nothing is dialed and no subscribe frame is
    written, whatever the world would answer. *)
Theorem reconnect_after_a_drop_never_dials (w : World) (err : error) :
  let dropped :=
    client_of (handleMessages [ReadError true err]
                 (client_of (Unsubscribe ["A"] connected_client))) in
  AssetIDs (options dropped) = ["B"] /\
  conn dropped = Some 1%nat /\
  reconnectTimer dropped = Some {| delay := 5 * second; attempt := 1; fired := false |} /\
  trace dropped = trace connected_client ++
    [CallOnError (ErrWrap "WebSocket error" err);
     CallOnDisconnect CloseNormalClosure "Connection closed";
     CallOnReconnect 1; AfterFunc (5 * second) 1] /\
  returned (timer_fires w dropped) = None /\
  trace (client_of (timer_fires w dropped)) = trace dropped /\
  last_frame (trace (client_of (timer_fires w dropped))) = Some ["A"; "B"].
Proof. cbv zeta. conjuncts; vm_compute; reflexivity. Qed.

(** *** Keeping a property through an operation *)

Lemma keeps_ret {A : Type} (P : WebSocketClient -> Prop) (a : A) : keeps P (ret a).
Proof. intros ws H. exact H. Qed.

Lemma keeps_read {A : Type} (P : WebSocketClient -> Prop) (f : WebSocketClient -> A) :
  keeps P (read f).
Proof. intros ws H. exact H. Qed.

Lemma keeps_bind {A B : Type} (P : WebSocketClient -> Prop) (c : M A) (k : A -> M B) :
  keeps P c -> (forall a, keeps P (k a)) -> keeps P (bind c k).
Proof.
  intros Hc Hk ws H. unfold bind. specialize (Hc ws H).
  destruct (c ws) as [a ws'|ws']; [apply Hk|]; exact Hc.
Qed.

Lemma keeps_update (P : WebSocketClient -> Prop) (f : WebSocketClient -> WebSocketClient) :
  (forall ws, P ws -> P (f ws)) -> keeps P (update f).
Proof. intros Hf ws H. apply Hf, H. Qed.

Lemma keeps_when (P : WebSocketClient -> Prop) (b : bool) (c : M unit) :
  keeps P c -> keeps P (when b c).
Proof. intros Hc. destruct b; [exact Hc | apply keeps_ret]. Qed.

Lemma keeps_for_each {A : Type} (P : WebSocketClient -> Prop) (body : A -> M unit) (l : list A) :
  (forall a, keeps P (body a)) -> keeps P (for_each body l).
Proof.
  intros Hb. induction l as [|a l IH]; simpl; [apply keeps_ret|].
  apply keeps_bind; [apply Hb | intros _; exact IH].
Qed.

Lemma count_snoc (p : Event -> bool) (t : list Event) (e : Event) :
  count p (t ++ [e]) = count p t + (if p e then 1 else 0).
Proof.
  unfold count. rewrite filter_app, length_app. simpl.
  destruct (p e); simpl; lia.
Qed.

Lemma wrap_int_small (z : Z) : int_min <= z <= int_max -> wrap_int z = z.
Proof.
  unfold int_min, int_max, wrap_int. intros H.
  rewrite Z.mod_small; lia.
Qed.

(** *** The reconnect budget *)

Section Budget.

Variables N L K K' : Z.
Variable cb : WebSocketCallbacks.
Hypothesis N_positive : 0 < N <= int_max.
Hypothesis L_positive : 0 <= L.

Let P : WebSocketClient -> Prop := budget N L K K' cb.

Lemma budget_mu (m : RWMutex) (ws : WebSocketClient) : P ws -> P (set_mu m ws).
Proof. exact (fun H => H). Qed.

Lemma budget_logged (l : list (list LogArg)) (ws : WebSocketClient) : P ws -> P (set_logged l ws).
Proof. exact (fun H => H). Qed.

Lemma budget_conn (c : option Conn) (ws : WebSocketClient) : P ws -> P (set_conn c ws).
Proof. exact (fun H => H). Qed.

Lemma budget_isConnecting (b : bool) (ws : WebSocketClient) : P ws -> P (set_isConnecting b ws).
Proof. exact (fun H => H). Qed.

Lemma budget_shouldReconnect (b : bool) (ws : WebSocketClient) :
  P ws -> P (set_shouldReconnect b ws).
Proof. exact (fun H => H). Qed.

Lemma budget_pingTicker (b : bool) (ws : WebSocketClient) : P ws -> P (set_pingTicker b ws).
Proof. exact (fun H => H). Qed.

Lemma budget_reconnectTimer (t : option Timer) (ws : WebSocketClient) :
  P ws -> P (set_reconnectTimer t ws).
Proof. exact (fun H => H). Qed.

Lemma budget_AssetIDs (l : list string) (ws : WebSocketClient) :
  P ws -> P (set_options (set_AssetIDs l (options ws)) ws).
Proof. exact (fun H => H). Qed.

Lemma budget_event (e : Event) (ws : WebSocketClient) :
  is_AfterFunc e = false -> is_reconnect_call e = false ->
  P ws -> P (set_trace (trace ws ++ [e]) ws).
Proof.
  intros H1 H2 (Hmax & Hcb & Hn & Ha & Hr). unfold P, budget. fields.
  rewrite !count_snoc, H1, H2, !Z.add_0_r. repeat split; assumption || lia.
Qed.

Create HintDb budget.

Hint Resolve budget_mu budget_logged budget_conn budget_isConnecting
  budget_shouldReconnect budget_pingTicker budget_reconnectTimer
  budget_AssetIDs : budget.

Lemma keeps_emit (e : Event) :
  is_AfterFunc e = false -> is_reconnect_call e = false -> keeps P (emit e).
Proof. intros H1 H2. apply keeps_update. intros ws. now apply budget_event. Qed.

Lemma keeps_Lock : keeps P Lock.
Proof. intros ws H. unfold Lock. destruct (mu ws); exact H. Qed.

Lemma keeps_Unlock : keeps P Unlock.
Proof. apply keeps_update. auto with budget. Qed.

Lemma keeps_RLock : keeps P RLock.
Proof. intros ws H. unfold RLock. destruct (mu ws); exact H. Qed.

Lemma keeps_RUnlock : keeps P RUnlock.
Proof. apply keeps_update. intros ws H. destruct (mu ws) as [| |[|n]]; exact H. Qed.

Lemma keeps_log (args : list LogArg) : keeps P (log args).
Proof.
  unfold log. apply keeps_bind; [apply keeps_read|]. intros d.
  apply keeps_when, keeps_update. auto with budget.
Qed.

Hint Resolve keeps_Lock keeps_Unlock keeps_RLock keeps_RUnlock keeps_log : budget.

(** Take an operation apart along its binds and branches; what it is made
    of keeps the budget. *)
Ltac keeper :=
  repeat first
    [ assumption
    | discriminate
    | solve [auto with budget]
    | apply keeps_ret
    | apply keeps_read
    | apply keeps_when
    | apply keeps_bind; [|intros ?]
    | apply keeps_emit; reflexivity
    | apply keeps_update; solve [auto with budget]
    | match goal with
      | |- keeps _ (match ?x with _ => _ end) => destruct x eqn:?
      end ].

Lemma keeps_IsConnected : keeps P IsConnected.
Proof. unfold IsConnected. keeper. Qed.

Lemma keeps_sendSubscription (w : World) : keeps P (sendSubscription w).
Proof. unfold sendSubscription. keeper. Qed.

Hint Resolve keeps_IsConnected keeps_sendSubscription : budget.

Lemma keeps_Connect (w : World) (err : error) :
  dials w = inl err -> keeps P (Connect w).
Proof. intros Hdial. unfold Connect. keeper. Qed.

Lemma keeps_cleanup : keeps P cleanup.
Proof. unfold cleanup. keeper. Qed.

Hint Resolve keeps_cleanup : budget.

Lemma keeps_Disconnect : keeps P Disconnect.
Proof. unfold Disconnect. keeper. Qed.

Lemma keeps_Subscribe (ids : list string) (w : World) : keeps P (Subscribe ids w).
Proof. unfold Subscribe. keeper. Qed.

Lemma keeps_Unsubscribe (ids : list string) : keeps P (Unsubscribe ids).
Proof. unfold Unsubscribe. cbv zeta. keeper. Qed.

Lemma keeps_handleError (err : error) : keeps P (handleError err).
Proof. unfold handleError. keeper. Qed.

Hint Resolve keeps_handleError : budget.

Lemma keeps_parseAndDispatch (data : Payload) : keeps P (parseAndDispatch data).
Proof. unfold parseAndDispatch. keeper. Qed.

Lemma keeps_processMessage (data : Payload) : keeps P (processMessage data).
Proof.
  unfold processMessage. destruct (json_Unmarshal_RawMessages data).
  - apply keeps_for_each, keeps_parseAndDispatch.
  - apply keeps_parseAndDispatch.
Qed.

Hint Resolve keeps_processMessage : budget.

(** The one place where the counter moves and a reconnect is scheduled. *)
Lemma keeps_scheduleReconnect : keeps P scheduleReconnect.
Proof.
  intros ws H. pose proof H as (Hmax & Hcb & Hn & Ha & Hr).
  unfold scheduleReconnect. unfold bind at 1. unfold Lock.
  destruct (mu ws) eqn:Hmu; cbn [client_of]; try exact H.
  unfold bind at 1, read. cbn [options set_mu]. unfold bind at 1. cbn [reconnectAttempts set_mu].
  rewrite Hmax.
  destruct ((0 <? N) && (N <=? reconnectAttempts ws)) eqn:Hcap.
  - revert H. change (P ws) with (P (set_mu Writer ws)).
    generalize (set_mu Writer ws). change (keeps P (Unlock ;; log [LStr "Max reconnect attempts reached"])).
    keeper.
  - assert (Hlt : reconnectAttempts ws < N).
    { apply andb_false_iff in Hcap. destruct Hcap as [Hc|Hc].
      - apply Z.ltb_ge in Hc. lia.
      - apply Z.leb_gt in Hc. exact Hc. }
    assert (Hincr : int_incr (reconnectAttempts ws) = reconnectAttempts ws + 1).
    { unfold int_incr. apply wrap_int_small. unfold int_min. lia. }
    exec. fields. rewrite Hincr.
    destruct (Debug (options ws)); fields; rewrite Hcb;
      destruct (OnReconnect cb) eqn:Hon; fields;
      unfold P, budget; fields; rewrite ?count_snoc; cbn [is_AfterFunc is_reconnect_call];
      rewrite Hon, Ha, Hr; repeat split; auto; lia.
Qed.

Hint Resolve keeps_scheduleReconnect : budget.

Lemma keeps_handleDisconnect (code : Z) (reason : string) :
  keeps P (handleDisconnect code reason).
Proof. unfold handleDisconnect. keeper. Qed.

Lemma keeps_read_loop (reads : list ReadResult) : keeps P (read_loop reads).
Proof.
  induction reads as [|r rest IH]; cbn [read_loop]; keeper.
Qed.

Lemma keeps_handleMessages (reads : list ReadResult) : keeps P (handleMessages reads).
Proof.
  unfold handleMessages. apply keeps_bind; [apply keeps_read_loop|]. intros l.
  pose proof keeps_handleDisconnect. keeper.
Qed.

Lemma keeps_ping_ticks (ticks : list World) : keeps P (ping_ticks ticks).
Proof.
  induction ticks as [|w rest IH]; cbn [ping_ticks]; keeper.
Qed.

Lemma keeps_pingLoop (ticks : list World) : keeps P (pingLoop ticks).
Proof.
  unfold pingLoop. pose proof (keeps_ping_ticks ticks). keeper.
Qed.

Lemma keeps_timer_fires (w : World) (err : error) :
  dials w = inl err -> keeps P (timer_fires w).
Proof.
  intros Hdial. pose proof (keeps_Connect w err Hdial).
  unfold timer_fires, reconnect_closure. keeper.
Qed.

Lemma budget_step (s : Step) (ws : WebSocketClient) :
  no_dial_success s = true -> P ws -> P (step s ws).
Proof.
  destruct s as [w|w| |ids w|ids| |reads|ticks]; simpl; intros Hs.
  - destruct (dials w) as [err|] eqn:Hd; [|discriminate]. now apply (keeps_Connect w err).
  - destruct (dials w) as [err|] eqn:Hd; [|discriminate]. now apply (keeps_timer_fires w err).
  - apply keeps_Disconnect.
  - apply keeps_Subscribe.
  - apply keeps_Unsubscribe.
  - apply keeps_IsConnected.
  - apply keeps_handleMessages.
  - apply keeps_pingLoop.
Qed.

Lemma budget_steps (l : list Step) (ws : WebSocketClient) :
  forallb no_dial_success l = true -> P ws -> P (steps l ws).
Proof.
  revert ws. induction l as [|s l IH]; intros ws Hl H; simpl; [exact H|].
  simpl in Hl. apply andb_true_iff in Hl. destruct Hl as [Hs Hl].
  apply IH; [exact Hl|]. now apply budget_step.
Qed.

End Budget.

(** C6: with the maximum at [N > 0] and no [Connect] dialing with success,
    whatever the owner, the timers, the read-loops and the heartbeat loops
    do, the counter only grows and never passes [N], and the reconnects
    scheduled ([time.AfterFunc]) and the on-reconnect callbacks invoked are
    as many as the counter has grown; so once the counter is at [N], after
    [N] attempts in a row, no reconnect is scheduled and no callback
    invoked any more. *)
Theorem reconnects_stop_at_the_maximum (N : Z) (l : list Step) (ws : WebSocketClient) :
  0 < N <= int_max ->
  MaxReconnectAttempts (options ws) = N ->
  0 <= reconnectAttempts ws <= N ->
  forallb no_dial_success l = true ->
  let ws' := steps l ws in
  reconnectAttempts ws <= reconnectAttempts ws' <= N /\
  count is_AfterFunc (trace ws') =
    count is_AfterFunc (trace ws) + (reconnectAttempts ws' - reconnectAttempts ws) /\
  count is_reconnect_call (trace ws') =
    count is_reconnect_call (trace ws) +
    (if OnReconnect (callbacks ws) then reconnectAttempts ws' - reconnectAttempts ws else 0) /\
  (reconnectAttempts ws = N ->
   count is_AfterFunc (trace ws') = count is_AfterFunc (trace ws) /\
   count is_reconnect_call (trace ws') = count is_reconnect_call (trace ws)).
Proof.
  intros HN Hmax Hn Hl ws'.
  assert (H : budget N (reconnectAttempts ws)
                (count is_AfterFunc (trace ws) - reconnectAttempts ws)
                (count is_reconnect_call (trace ws) -
                 (if OnReconnect (callbacks ws) then reconnectAttempts ws else 0))
                (callbacks ws) ws').
  { apply budget_steps; [exact HN | apply Hn | exact Hl |].
    unfold budget. repeat split; try assumption; lia. }
  destruct H as (_ & _ & Hn' & Ha & Hr).
  destruct (OnReconnect (callbacks ws)); repeat split; intros; lia.
Qed.

Lemma reconnects_stop_at_the_maximum_witness :
  0 < 1 <= int_max /\
  MaxReconnectAttempts (options exhausted_client) = 1 /\
  0 <= reconnectAttempts exhausted_client <= 1 /\
  forallb no_dial_success
    [StepReadLoop [ReadError true (ErrExternal "EOF")]; StepTimer unreachable;
     StepConnect unreachable; StepReadLoop []] = true /\
  reconnectAttempts exhausted_client = 1 /\
  let ws' := steps [StepReadLoop [ReadError true (ErrExternal "EOF")]; StepTimer unreachable;
                    StepConnect unreachable; StepReadLoop []] exhausted_client in
  count is_AfterFunc (trace ws') = count is_AfterFunc (trace exhausted_client) /\
  count is_reconnect_call (trace ws') = count is_reconnect_call (trace exhausted_client).
Proof.
  assert (H1 : 0 < 1 <= int_max) by (unfold int_max; lia).
  assert (H2 : MaxReconnectAttempts (options exhausted_client) = 1) by (vm_compute; reflexivity).
  assert (H3 : reconnectAttempts exhausted_client = 1) by (vm_compute; reflexivity).
  assert (H4 : 0 <= reconnectAttempts exhausted_client <= 1) by (rewrite H3; lia).
  assert (H5 : forallb no_dial_success
                 [StepReadLoop [ReadError true (ErrExternal "EOF")]; StepTimer unreachable;
                  StepConnect unreachable; StepReadLoop []] = true) by reflexivity.
  pose proof (reconnects_stop_at_the_maximum 1 _ exhausted_client H1 H2 H4 H5)
    as (_ & _ & _ & stops).
  split; [exact H1|]. split; [exact H2|]. split; [exact H4|]. split; [exact H5|].
  split; [exact H3|]. exact (stops H3).
Defined.

(** Like [by_running], for traces that may end in empty lists. *)
Ltac by_running_nil :=
  match goal with
  | |- ?lhs = _ =>
      let v := eval cbv -[app] in lhs in
      let E := fresh "E" in
      assert (E : lhs = v) by (vm_compute; reflexivity);
      rewrite E; clear E; cbn [app]; rewrite <- ?app_assoc; cbn [app];
      rewrite ?app_nil_r; reflexivity
  end.

(** As [run_it], whatever the operation returns. *)
Ltac run_on :=
  match goal with
  | |- exists ws', ?run = _ /\ _ => exists (client_of run)
  end.

(** *** [Disconnect] *)

(** [Disconnect] returns with the handle closed and cleared, the ticker and
    the pending reconnect timer stopped and reconnection switched off; a
    second [Disconnect] changes nothing and [IsConnected] answers false. *)
Theorem Disconnect_is_final_and_idempotent (ws : WebSocketClient) :
  mu ws = Free ->
  exists ws',
    Disconnect ws = Ret tt ws' /\
    conn ws' = None /\ shouldReconnect ws' = false /\
    pingTicker ws' = false /\ reconnectTimer ws' = None /\ mu ws' = Free /\
    trace ws' = trace ws ++
      (if pingTicker ws then [TickerStop] else []) ++
      (match reconnectTimer ws with Some _ => [TimerStop] | None => [] end) ++
      (match conn ws with Some c => [Close c] | None => [] end) /\
    IsConnected ws' = Ret false ws' /\
    Disconnect ws' = Ret tt ws'.
Proof.
  intros Hmu. destruct ws as [o cb c p t n ic sr m tr lg]. simpl in Hmu. subst m.
  run_it. destruct c, p, t; conjuncts; try (vm_compute; reflexivity); by_running_nil.
Qed.

Lemma Disconnect_is_final_and_idempotent_witness :
  mu connected_client = Free /\
  exists ws',
    Disconnect connected_client = Ret tt ws' /\
    conn ws' = None /\
    trace ws' = trace connected_client ++ [Close 1%nat] /\
    Disconnect ws' = Ret tt ws'.
Proof.
  split; [reflexivity|].
  destruct (Disconnect_is_final_and_idempotent connected_client eq_refl)
    as (ws' & Hrun & Hc & _ & _ & _ & _ & Htr & _ & Hagain).
  exists ws'. repeat split; assumption.
Defined.

(** *** [Connect], what it leaves behind *)

(** A [Connect] whose derivation, proxy URL and dial are fine leaves the
    client holding the new handle with the attempt counter back at zero,
    and that also when the subscribe frame cannot be written: [Connect]
    then returns the error, starts neither loop and invokes no callback, yet
    [IsConnected] answers true. *)
Theorem Connect_resets_the_attempts (w : World) (ws : WebSocketClient)
    (creds : string * string * string) (c : Conn) :
  mu ws = Free -> isConnecting ws = false -> conn ws = None ->
  derives w = inr creds -> ProxyUrl (options ws) = "" \/ parses w = None ->
  dials w = inr c ->
  exists ws',
    Connect w ws = Ret (option_map (ErrWrap "failed to send subscription") (writes w)) ws' /\
    conn ws' = Some c /\ reconnectAttempts ws' = 0 /\ isConnecting ws' = false /\
    shouldReconnect ws' = true /\ mu ws' = Free /\
    options ws' = options ws /\
    IsConnected ws' = Ret true ws' /\
    (forall e, writes w = Some e ->
       trace ws' = trace ws ++
         [DeriveApiKey; Dial (wsURL ++ "/ws/market") (ProxyUrl (options ws));
          WriteJSON c [("assets_ids", VStrings (AssetIDs (options ws)));
                       ("type", VString "market")]]).
Proof.
  intros Hmu Hic Hc Hd Hproxy Hdial.
  destruct ws as [[ids mk ar rd mx dbg px] [b1 b2 b3 b4 b5 b6 oc b8 b9] c0 p t n ic sr m tr lg].
  destruct w as [dv ps dl wr]. destruct creds as [[key secret] pass].
  simpl in Hmu, Hic, Hc, Hd, Hproxy, Hdial. subst m ic c0 dv dl.
  run_it.
  destruct Hproxy as [-> | ->]; [|destruct px];
    destruct dbg, oc, wr as [e|]; conjuncts; try (vm_compute; reflexivity);
    intros e' He'; try discriminate; by_running_nil.
Qed.

Lemma Connect_resets_the_attempts_witness :
  mu exhausted_client = Free /\ isConnecting exhausted_client = false /\
  conn exhausted_client = None /\ reconnectAttempts exhausted_client = 1 /\
  exists ws',
    Connect broken_pipe exhausted_client =
      Ret (Some (ErrWrap "failed to send subscription" (ErrExternal "write: broken pipe"))) ws' /\
    conn ws' = Some 1%nat /\ reconnectAttempts ws' = 0.
Proof.
  split; [reflexivity|]. split; [reflexivity|]. split; [reflexivity|]. split; [reflexivity|].
  destruct (Connect_resets_the_attempts broken_pipe exhausted_client
              ("key", "secret", "passphrase") 1%nat
              eq_refl eq_refl eq_refl eq_refl (or_introl eq_refl) eq_refl)
    as (ws' & Hrun & Hc & Hn & _).
  exists ws'. repeat split; assumption.
Defined.

Lemma fold_last_frame (l : list Event) (acc : option (list string)) :
  fold_left (fun acc e => match frame_assets e with Some l => Some l | None => acc end) l acc =
  match last_frame l with Some x => Some x | None => acc end.
Proof.
  unfold last_frame. revert acc. induction l as [|e l IH]; intros acc; simpl; [reflexivity|].
  rewrite IH, (IH (match frame_assets e with Some l0 => Some l0 | None => None end)).
  destruct (fold_left _ l None); [reflexivity|]. destruct (frame_assets e); reflexivity.
Qed.

Lemma last_frame_app (t l : list Event) :
  last_frame (t ++ l) = match last_frame l with Some x => Some x | None => last_frame t end.
Proof. unfold last_frame at 1. rewrite fold_left_app. apply fold_last_frame. Qed.

(** Settle [last_frame (trace ...) = ...] by running the operation. *)
Ltac last_frame_by_running :=
  match goal with
  | |- last_frame ?t = _ =>
      let v := eval cbv -[app] in t in
      let E := fresh "E" in
      assert (E : t = v) by (vm_compute; reflexivity);
      rewrite E; clear E; cbn [app]; rewrite <- ?app_assoc; cbn [app];
      rewrite last_frame_app; reflexivity
  end.

(** A [Connect] that fails because the credentials cannot be derived or
    because the dial fails leaves the client as a disconnected one that is
    not connecting, with the mutex free and the counter untouched, so that
    the next [Connect], in a world where everything works, connects. *)
Theorem Connect_can_be_retried_after_a_failure
    (w again : World) (ws : WebSocketClient) (creds : string * string * string) (c : Conn) :
  mu ws = Free -> isConnecting ws = false -> conn ws = None ->
  ProxyUrl (options ws) = "" ->
  (exists err, derives w = inl err) \/
  (exists k err, derives w = inr k /\ dials w = inl err) ->
  derives again = inr creds -> dials again = inr c -> writes again = None ->
  exists err ws',
    Connect w ws = Ret (Some err) ws' /\
    conn ws' = None /\ isConnecting ws' = false /\ mu ws' = Free /\
    reconnectAttempts ws' = reconnectAttempts ws /\
    options ws' = options ws /\
    exists ws'',
      Connect again ws' = Ret None ws'' /\ conn ws'' = Some c /\
      last_frame (trace ws'') = Some (AssetIDs (options ws)).
Proof.
  intros Hmu Hic Hc Hpx Hw Hd Hdial Hwr.
  destruct ws as [[ids mk ar rd mx dbg px] [b1 b2 b3 b4 b5 b6 oc b8 b9] c0 p t n ic sr m tr lg].
  destruct w as [dv ps dl wr]. destruct again as [dv' ps' dl' wr'].
  destruct creds as [[key secret] pass].
  simpl in Hmu, Hic, Hc, Hpx, Hw, Hd, Hdial, Hwr. subst m ic c0 px dv' dl' wr'.
  destruct Hw as [[err ->] | ([[k1 k2] k3] & err & -> & ->)].
  - exists (ErrWrap "failed to derive API key" err).
    run_on. conjuncts; try (vm_compute; reflexivity).
    run_on. destruct dbg, oc; conjuncts; try (vm_compute; reflexivity);
      last_frame_by_running.
  - exists (ErrWrap "failed to connect to WebSocket" err).
    run_on. destruct dbg; conjuncts; try (vm_compute; reflexivity);
      run_on; destruct oc; conjuncts; try (vm_compute; reflexivity);
      last_frame_by_running.
Qed.

Lemma Connect_can_be_retried_after_a_failure_witness :
  mu demo_client = Free /\ isConnecting demo_client = false /\ conn demo_client = None /\
  exists err ws',
    Connect unreachable demo_client = Ret (Some err) ws' /\
    conn ws' = None /\ isConnecting ws' = false /\
    exists ws'',
      Connect (fair 2%nat) ws' = Ret None ws'' /\ conn ws'' = Some 2%nat /\
      last_frame (trace ws'') = Some ["A"; "B"].
Proof.
  split; [reflexivity|]. split; [reflexivity|]. split; [reflexivity|].
  destruct (Connect_can_be_retried_after_a_failure unreachable (fair 2%nat) demo_client
              ("key", "secret", "passphrase") 2%nat eq_refl eq_refl eq_refl eq_refl
              (or_intror (ex_intro _ ("key", "secret", "passphrase")
                            (ex_intro _ (ErrExternal "dial tcp: connection refused")
                               (conj eq_refl eq_refl))))
              eq_refl eq_refl eq_refl)
    as (err & ws' & Hrun & Hc & Hic & _ & _ & _ & ws'' & Hrun2 & Hc2 & Hlast).
  exists err, ws'. repeat split; try assumption.
  exists ws''. repeat split; assumption.
Defined.

(** *** More of the read-loop *)

(** A frame that is not a text frame (binary, ping, pong, close) is read
    and dropped: no callback, no log line, the loop goes on. *)
Theorem other_frames_are_ignored
    (messageType : Z) (message : Payload) (rest : list ReadResult) (ws : WebSocketClient) :
  mu ws = Free -> messageType <> TextMessage ->
  handleMessages (Frame messageType message :: rest) ws = handleMessages rest ws.
Proof.
  intros Hmu Hmt.
  assert (Hloop : read_loop (Frame messageType message :: rest) ws = read_loop rest ws).
  { rewrite (read_loop_unfold (Frame messageType message :: rest) _ Hmu).
    destruct (conn ws) as [c|] eqn:Hc.
    - apply Z.eqb_neq in Hmt. rewrite Hmt. reflexivity.
    - rewrite (read_loop_unfold rest _ Hmu), Hc. reflexivity. }
  unfold handleMessages, bind. rewrite Hloop. reflexivity.
Qed.

Lemma other_frames_are_ignored_witness :
  mu connected_client = Free /\ 2 <> TextMessage /\
  handleMessages [Frame 2 (Doc trade_frame); Frame TextMessage (Doc trade_frame)] connected_client =
  handleMessages [Frame TextMessage (Doc trade_frame)] connected_client.
Proof.
  split; [reflexivity|]. split; [discriminate|].
  apply (other_frames_are_ignored 2 (Doc trade_frame) [Frame TextMessage (Doc trade_frame)]
           connected_client); [reflexivity | discriminate].
Defined.

(** The text frames [null] and [[]] are taken as arrays without elements:
    nothing is dispatched, no error is reported, the client is untouched. *)
Theorem empty_batches_are_dropped (rest : list ReadResult) (ws : WebSocketClient) :
  mu ws = Free ->
  handleMessages (Frame TextMessage (Doc JNull) :: rest) ws = handleMessages rest ws /\
  handleMessages (Frame TextMessage (Doc (JArray [])) :: rest) ws = handleMessages rest ws.
Proof.
  intros Hmu. destruct (conn ws) as [c|] eqn:Hc.
  - split; apply (handleMessages_text_frame _ _ _ _ c); auto.
  - split; unfold handleMessages, bind; rewrite !(read_loop_unfold _ _ Hmu), Hc; reflexivity.
Qed.

Lemma empty_batches_are_dropped_witness :
  mu connected_client = Free /\
  handleMessages [Frame TextMessage (Doc JNull)] connected_client =
    handleMessages [] connected_client /\
  handleMessages [Frame TextMessage (Doc (JArray []))] connected_client =
    handleMessages [] connected_client.
Proof.
  split; [reflexivity|]. apply (empty_batches_are_dropped [] connected_client). reflexivity.
Defined.

(** A text frame holding one event that decodes invokes the callback of its
    kind, if registered, and then the general callback, if registered, and
    nothing else. *)
Theorem single_event_goes_to_its_callback_then_the_general_one
    (message : Payload) (msg : MarketChannelMessage) (rest : list ReadResult)
    (ws : WebSocketClient) (c : Conn) :
  mu ws = Free -> conn ws = Some c ->
  ParseMarketChannelMessage message = inr msg ->
  exists ws',
    handleMessages (Frame TextMessage message :: rest) ws = handleMessages rest ws' /\
    trace ws' = trace ws ++
      match msg with
      | MsgBook m => if OnBook (callbacks ws) then [CallOnBook m] else []
      | MsgPriceChange m => if OnPriceChange (callbacks ws) then [CallOnPriceChange m] else []
      | MsgTickSizeChange m =>
          if OnTickSizeChange (callbacks ws) then [CallOnTickSizeChange m] else []
      | MsgLastTradePrice m =>
          if OnLastTradePrice (callbacks ws) then [CallOnLastTradePrice m] else []
      end ++
      (if OnMessage (callbacks ws) then [CallOnMessage msg] else []) /\
    only_observed ws ws'.
Proof.
  intros Hmu Hc Hp.
  destruct (decoded_is_an_object _ _ Hp) as [Hpong Harr].
  destruct (processMessage_runs message ws) as (ws' & Hrun & Htr & Hob).
  rewrite Harr in Htr. unfold calls_for in Htr. rewrite Hp in Htr.
  exists ws'. split; [apply (handleMessages_text_frame _ _ _ _ c); assumption|].
  split; [exact Htr | exact Hob].
Qed.

Lemma single_event_goes_to_its_callback_then_the_general_one_witness :
  mu connected_client = Free /\ conn connected_client = Some 1%nat /\
  exists ws',
    handleMessages [Frame TextMessage (Doc trade_frame)] connected_client =
      handleMessages [] ws' /\
    trace ws' = trace connected_client ++
      [CallOnLastTradePrice
         {| lt_Market := "A"; lt_Side := "BUY"; lt_Price := "0.42"; lt_Size := "10" |};
       CallOnMessage (MsgLastTradePrice
         {| lt_Market := "A"; lt_Side := "BUY"; lt_Price := "0.42"; lt_Size := "10" |})].
Proof.
  split; [reflexivity|]. split; [reflexivity|].
  destruct (single_event_goes_to_its_callback_then_the_general_one
              (Doc trade_frame)
              (MsgLastTradePrice
                 {| lt_Market := "A"; lt_Side := "BUY"; lt_Price := "0.42"; lt_Size := "10" |})
              [] connected_client 1%nat eq_refl eq_refl eq_refl)
    as (ws' & Hloop & Htr & _).
  exists ws'. split; assumption.
Defined.

(** *** Scheduling a reconnect *)

Lemma scheduleReconnect_runs (ws : WebSocketClient) :
  mu ws = Free ->
  scheduleReconnect ws =
    if (0 <? MaxReconnectAttempts (options ws)) &&
       (MaxReconnectAttempts (options ws) <=? reconnectAttempts ws)
    then log [LStr "Max reconnect attempts reached"] ws
    else
      let n := int_incr (reconnectAttempts ws) in
      let d := ReconnectDelay (options ws) in
      Ret tt
        (set_reconnectTimer (Some {| delay := d; attempt := n; fired := false |})
           (set_trace
              ((trace ws ++ (if OnReconnect (callbacks ws) then [CallOnReconnect n] else [])) ++
               [AfterFunc d n])
              (set_logged
                 (logged ws ++
                  (if Debug (options ws)
                   then [[LStr "[PolymarketWebSocket]"; LStr "Scheduling reconnect attempt ";
                          LInt n; LStr "..."]]
                   else []))
                 (set_reconnectAttempts n ws)))).
Proof.
  intros Hmu.
  destruct ws as [[ids mk ar rd mx dbg px] [b1 b2 b3 b4 b5 b6 b7 b8 b9] c p t n ic sr m tr lg].
  simpl in Hmu. subst m. exec. fields.
  destruct ((0 <? mx) && (mx <=? n)); fields; [reflexivity|].
  destruct dbg, b9; fields; rewrite ?app_nil_r; reflexivity.
Qed.

(** [scheduleReconnect] refuses exactly when the maximum is positive and
    reached, so a maximum of zero or below is no limit; otherwise it counts
    the attempt, announces it with its number and arms the timer with the
    configured delay. *)
Theorem scheduleReconnect_counts_announces_and_arms (ws : WebSocketClient) :
  mu ws = Free -> int_min <= reconnectAttempts ws < int_max ->
  (0 < MaxReconnectAttempts (options ws) <= reconnectAttempts ws ->
   exists ws',
     scheduleReconnect ws = Ret tt ws' /\ trace ws' = trace ws /\
     reconnectAttempts ws' = reconnectAttempts ws /\
     reconnectTimer ws' = reconnectTimer ws) /\
  (MaxReconnectAttempts (options ws) <= 0 \/
   reconnectAttempts ws < MaxReconnectAttempts (options ws) ->
   exists ws',
     scheduleReconnect ws = Ret tt ws' /\
     reconnectAttempts ws' = reconnectAttempts ws + 1 /\
     trace ws' = trace ws ++
       (if OnReconnect (callbacks ws)
        then [CallOnReconnect (reconnectAttempts ws + 1)] else []) ++
       [AfterFunc (ReconnectDelay (options ws)) (reconnectAttempts ws + 1)] /\
     reconnectTimer ws' =
       Some {| delay := ReconnectDelay (options ws);
               attempt := reconnectAttempts ws + 1; fired := false |} /\
     mu ws' = Free).
Proof.
  intros Hmu Hn. rewrite (scheduleReconnect_runs ws Hmu). split.
  - intros Hcap.
    replace ((0 <? MaxReconnectAttempts (options ws)) &&
             (MaxReconnectAttempts (options ws) <=? reconnectAttempts ws)) with true
      by (symmetry; apply andb_true_iff; split; [apply Z.ltb_lt | apply Z.leb_le]; lia).
    destruct (log_runs [LStr "Max reconnect attempts reached"] ws) as (ws' & Hrun & Htr & Hob).
    destruct (only_observed_fields _ _ Hob) as (_ & _ & _ & _ & Hatt & _ & _ & Htimer & _).
    exists ws'. auto.
  - intros Hfree.
    replace ((0 <? MaxReconnectAttempts (options ws)) &&
             (MaxReconnectAttempts (options ws) <=? reconnectAttempts ws)) with false
      by (symmetry; apply andb_false_iff; destruct Hfree;
          [left; apply Z.ltb_ge | right; apply Z.leb_gt]; lia).
    assert (Hincr : int_incr (reconnectAttempts ws) = reconnectAttempts ws + 1).
    { unfold int_incr. apply wrap_int_small. unfold int_max in *. lia. }
    cbv zeta. rewrite Hincr. eexists. split; [reflexivity|]. fields.
    rewrite <- app_assoc, Hmu. auto.
Qed.

Lemma scheduleReconnect_counts_announces_and_arms_witness :
  mu demo_client = Free /\ int_min <= reconnectAttempts demo_client < int_max /\
  reconnectAttempts demo_client < MaxReconnectAttempts (options demo_client) /\
  exists ws',
    scheduleReconnect demo_client = Ret tt ws' /\
    reconnectAttempts ws' = 1 /\
    trace ws' = [CallOnReconnect 1; AfterFunc (5 * second) 1].
Proof.
  assert (H1 : mu demo_client = Free) by reflexivity.
  assert (H2 : int_min <= reconnectAttempts demo_client < int_max)
    by (vm_compute; split; [discriminate | reflexivity]).
  assert (H3 : reconnectAttempts demo_client < MaxReconnectAttempts (options demo_client))
    by (vm_compute; reflexivity).
  split; [exact H1|]. split; [exact H2|]. split; [exact H3|].
  destruct (scheduleReconnect_counts_announces_and_arms demo_client H1 H2) as [_ schedules].
  destruct (schedules (or_intror H3)) as (ws' & Hrun & Hn & Htr & _).
  exists ws'. repeat split; assumption.
Defined.


(** *** A read error *)

Lemma handleMessages_read_error
    (unexpected : bool) (err : error) (rest : list ReadResult) (ws : WebSocketClient) (c : Conn) :
  mu ws = Free -> conn ws = Some c ->
  handleMessages (ReadError unexpected err :: rest) ws =
    (when unexpected (handleError (ErrWrap "WebSocket error" err)) ;;
     log [LStr "Message handler stopped"] ;;
     handleDisconnect CloseNormalClosure "Connection closed" ;;
     ret Returned) ws.
Proof.
  intros Hmu Hc. unfold handleMessages. unfold bind at 1.
  rewrite (read_loop_unfold _ _ Hmu), Hc.
  destruct unexpected; [|reflexivity].
  destruct (handleError_runs (ErrWrap "WebSocket error" err) ws) as (ws1 & Hrun & _).
  unfold when, bind. rewrite Hrun. reflexivity.
Qed.

(** A read error ends the read-loop, the reads behind it are never taken.
    The error callback is invoked only for an unexpected close; the ticker
    and a pending timer are stopped; the on-disconnect callback always gets
    the code 1000 and the reason "Connection closed"; the handle stays in
    the client.  Then, if reconnection is on for the client and its owner
    and the maximum is not reached, one reconnect is counted, announced and
    armed. *)
Theorem read_error_ends_the_loop
    (unexpected : bool) (err : error) (rest : list ReadResult) (ws : WebSocketClient) (c : Conn) :
  mu ws = Free -> conn ws = Some c -> int_min <= reconnectAttempts ws < int_max ->
  exists ws',
    handleMessages (ReadError unexpected err :: rest) ws = Ret Returned ws' /\
    conn ws' = Some c /\ mu ws' = Free /\
    trace ws' = trace ws ++
      (if unexpected && OnError (callbacks ws)
       then [CallOnError (ErrWrap "WebSocket error" err)] else []) ++
      (if pingTicker ws then [TickerStop] else []) ++
      (match reconnectTimer ws with Some _ => [TimerStop] | None => [] end) ++
      (if OnDisconnect (callbacks ws)
       then [CallOnDisconnect 1000 "Connection closed"] else []) ++
      (if shouldReconnect ws && AutoReconnect (options ws) &&
          negb ((0 <? MaxReconnectAttempts (options ws)) &&
                (MaxReconnectAttempts (options ws) <=? reconnectAttempts ws))
       then (if OnReconnect (callbacks ws)
             then [CallOnReconnect (reconnectAttempts ws + 1)] else []) ++
            [AfterFunc (ReconnectDelay (options ws)) (reconnectAttempts ws + 1)]
       else []).
Proof.
  intros Hmu Hc Hn. rewrite (handleMessages_read_error _ _ _ _ c Hmu Hc).
  destruct ws as [[ids mk ar rd mx dbg px] [b1 b2 b3 b4 b5 b6 b7 b8 b9] c0 p t n ic sr m tr lg].
  simpl in Hmu, Hc, Hn. subst m c0.
  assert (Hincr : int_incr n = n + 1).
  { unfold int_incr. apply wrap_int_small. unfold int_max in *. lia. }
  set (ws0 := {| options := {| AssetIDs := ids; Markets := mk; AutoReconnect := ar;
                                ReconnectDelay := rd; MaxReconnectAttempts := mx;
                                Debug := dbg; ProxyUrl := px |};
                 callbacks := {| OnBook := b1; OnPriceChange := b2; OnTickSizeChange := b3;
                                 OnLastTradePrice := b4; OnMessage := b5; OnError := b6;
                                 OnConnect := b7; OnDisconnect := b8; OnReconnect := b9 |};
                 conn := Some c; pingTicker := p; reconnectTimer := t;
                 reconnectAttempts := n; isConnecting := ic; shouldReconnect := sr;
                 mu := Free; trace := tr; logged := lg |}).
  set (ws1 := client_of
         ((when unexpected (handleError (ErrWrap "WebSocket error" err)) ;;
           log [LStr "Message handler stopped"] ;;
           disconnect_prefix CloseNormalClosure "Connection closed") ws0)).
  assert (E : forall k,
             (when unexpected (handleError (ErrWrap "WebSocket error" err)) ;;
              log [LStr "Message handler stopped"] ;;
              handleDisconnect_then k CloseNormalClosure "Connection closed" ;;
              ret Returned) ws0 =
             (when (sr && ar) k ;; ret Returned) ws1)
    by (intros k; subst ws0 ws1;
        destruct unexpected, b6, p, t, b8, sr, ar, dbg; vm_compute; reflexivity).
  change (handleDisconnect CloseNormalClosure "Connection closed")
    with (handleDisconnect_then scheduleReconnect CloseNormalClosure "Connection closed").
  rewrite E. clear E.
  assert (Hmu1 : mu ws1 = Free)
    by (subst ws0 ws1; destruct unexpected, b6, p, t, b8, dbg; vm_compute; reflexivity).
  assert (Hf : MaxReconnectAttempts (options ws1) = mx /\ reconnectAttempts ws1 = n /\
               ReconnectDelay (options ws1) = rd /\ OnReconnect (callbacks ws1) = b9 /\
               Debug (options ws1) = dbg /\ conn ws1 = Some c)
    by (subst ws0 ws1; destruct unexpected, b6, p, t, b8, dbg; vm_compute; repeat split).
  destruct Hf as (Hmx & Hatt & Hrd & Hon & Hdbg & Hc1).
  assert (Htr1 : trace ws1 = tr ++
            (if unexpected && b6 then [CallOnError (ErrWrap "WebSocket error" err)] else []) ++
            (if p then [TickerStop] else []) ++
            (match t with Some _ => [TimerStop] | None => [] end) ++
            (if b8 then [CallOnDisconnect 1000 "Connection closed"] else []))
    by (subst ws0 ws1; destruct unexpected, b6, p, t, b8, dbg; by_running_nil).
  clearbody ws1. subst ws0. fields.
  destruct (sr && ar) eqn:Hsa; cbn [andb when].
  - unfold bind. rewrite (scheduleReconnect_runs ws1 Hmu1), Hmx, Hatt, Hrd, Hon, Hdbg, Hincr.
    destruct ((0 <? mx) && (mx <=? n)); cbn [negb].
    + destruct (log_runs [LStr "Max reconnect attempts reached"] ws1)
        as (ws' & Hrun & Htr & Hob).
      destruct (only_observed_fields _ _ Hob) as (_ & _ & Hc' & Hmu' & _).
      rewrite Hrun. exists ws'. unfold ret.
      rewrite Hc', Hmu', Htr, Htr1, Hc1, Hmu1, !app_nil_r. auto.
    + cbv zeta. eexists. unfold ret. split; [reflexivity|]. fields.
      rewrite Hc1, Hmu1, Htr1, <- !app_assoc. auto.
  - exists ws1. unfold bind, ret. rewrite Htr1, !app_nil_r. auto.
Qed.

Lemma read_error_ends_the_loop_witness :
  mu connected_client = Free /\ conn connected_client = Some 1%nat /\
  int_min <= reconnectAttempts connected_client < int_max /\
  exists ws',
    handleMessages [ReadError true (ErrExternal "EOF"); Frame TextMessage (Doc trade_frame)]
      connected_client = Ret Returned ws' /\
    conn ws' = Some 1%nat /\
    trace ws' = trace connected_client ++
      [CallOnError (ErrWrap "WebSocket error" (ErrExternal "EOF"));
       CallOnDisconnect 1000 "Connection closed";
       CallOnReconnect 1; AfterFunc (5 * second) 1].
Proof.
  assert (H : int_min <= reconnectAttempts connected_client < int_max)
    by (vm_compute; split; [discriminate | reflexivity]).
  split; [reflexivity|]. split; [reflexivity|]. split; [exact H|].
  destruct (read_error_ends_the_loop true (ErrExternal "EOF")
              [Frame TextMessage (Doc trade_frame)] connected_client 1%nat
              eq_refl eq_refl H) as (ws' & Hrun & Hc & _ & Htr).
  exists ws'. split; [exact Hrun|]. split; [exact Hc|]. exact Htr.
Defined.

(** A read-loop that finds no handle, as after [Disconnect], returns
    without reading; with reconnection switched off by [Disconnect] it
    invokes the on-disconnect callback and schedules nothing. *)
Theorem read_loop_after_Disconnect_schedules_nothing
    (reads : list ReadResult) (ws : WebSocketClient) :
  mu ws = Free -> conn ws = None -> shouldReconnect ws = false ->
  exists ws',
    handleMessages reads ws = Ret Returned ws' /\
    trace ws' = trace ws ++
      (if pingTicker ws then [TickerStop] else []) ++
      (match reconnectTimer ws with Some _ => [TimerStop] | None => [] end) ++
      (if OnDisconnect (callbacks ws)
       then [CallOnDisconnect 1000 "Connection closed"] else []) /\
    reconnectTimer ws' = None /\
    reconnectAttempts ws' = reconnectAttempts ws /\
    conn ws' = None /\ mu ws' = Free.
Proof.
  intros Hmu Hc Hsr.
  assert (E : handleMessages reads ws =
              (log [LStr "Message handler stopped"] ;;
               handleDisconnect CloseNormalClosure "Connection closed" ;;
               ret Returned) ws).
  { unfold handleMessages. unfold bind at 1.
    rewrite (read_loop_unfold _ _ Hmu), Hc. reflexivity. }
  rewrite E. clear E.
  destruct ws as [[ids mk ar rd mx dbg px] [b1 b2 b3 b4 b5 b6 b7 b8 b9] c0 p t n ic sr m tr lg].
  simpl in Hmu, Hc, Hsr. subst m c0 sr.
  run_on. destruct p, t, b8, dbg; conjuncts; try (vm_compute; reflexivity); by_running_nil.
Qed.

Lemma read_loop_after_Disconnect_schedules_nothing_witness :
  let ws := client_of (Disconnect connected_client) in
  mu ws = Free /\ conn ws = None /\ shouldReconnect ws = false /\
  exists ws',
    handleMessages [Frame TextMessage (Doc trade_frame)] ws = Ret Returned ws' /\
    trace ws' = trace ws ++ [CallOnDisconnect 1000 "Connection closed"] /\
    reconnectTimer ws' = None.
Proof.
  cbv zeta. split; [reflexivity|]. split; [reflexivity|]. split; [reflexivity|].
  destruct (read_loop_after_Disconnect_schedules_nothing
              [Frame TextMessage (Doc trade_frame)] (client_of (Disconnect connected_client))
              eq_refl eq_refl eq_refl) as (ws' & Hrun & Htr & Ht & _).
  exists ws'. split; [exact Hrun|]. split; [exact Htr | exact Ht].
Defined.

(** *** The heartbeat loop *)

Lemma ping_ticks_without_handle (ticks : list World) (ws : WebSocketClient) :
  mu ws = Free -> conn ws = None -> ping_ticks ticks ws = Ret Reading ws.
Proof.
  intros Hmu Hc. induction ticks as [|w rest IH]; [reflexivity|].
  cbn [ping_ticks]. unfold bind at 1, RLock. rewrite Hmu.
  unfold bind at 1, read. unfold bind at 1, RUnlock, update. fields.
  rewrite (unlocked _ _ Hmu), Hc. exact IH.
Qed.

(** While the client holds no handle the heartbeat loop writes nothing and
    goes on waiting, tick after tick. *)
Theorem pingLoop_is_silent_without_a_handle (ticks : list World) (ws : WebSocketClient) :
  mu ws = Free -> conn ws = None ->
  pingLoop ticks ws = Ret Reading (set_pingTicker true ws).
Proof.
  intros Hmu Hc. unfold pingLoop.
  unfold bind at 1, Lock. rewrite Hmu.
  unfold bind at 1, update. unfold bind at 1, Unlock, update. fields.
  assert (E : set_mu Free (set_pingTicker true (set_mu Writer ws)) = set_pingTicker true ws).
  { destruct ws; simpl in *; subst; reflexivity. }
  rewrite E. unfold bind.
  rewrite ping_ticks_without_handle by assumption. reflexivity.
Qed.

Lemma pingLoop_is_silent_without_a_handle_witness :
  mu demo_client = Free /\ conn demo_client = None /\
  pingLoop [fair 1%nat; broken_pipe] demo_client = Ret Reading (set_pingTicker true demo_client).
Proof.
  split; [reflexivity|]. split; [reflexivity|].
  apply (pingLoop_is_silent_without_a_handle [fair 1%nat; broken_pipe] demo_client);
    reflexivity.
Defined.

(** The first heartbeat that cannot be written ends the heartbeat loop: the
    error goes to the error callback, the ticker is stopped, later ticks
    write nothing; the handle stays in place and nothing is scheduled. *)
Theorem failed_ping_ends_the_heartbeat_only
    (w : World) (e : error) (rest : list World) (ws : WebSocketClient) (c : Conn) :
  mu ws = Free -> conn ws = Some c -> writes w = Some e ->
  exists ws',
    pingLoop (w :: rest) ws = Ret Returned ws' /\
    trace ws' = trace ws ++
      [WriteMessage c "PING"] ++
      (if OnError (callbacks ws) then [CallOnError (ErrWrap "failed to send ping" e)] else []) ++
      [TickerStop] /\
    conn ws' = Some c /\ pingTicker ws' = true /\
    reconnectTimer ws' = reconnectTimer ws /\
    reconnectAttempts ws' = reconnectAttempts ws /\ mu ws' = Free.
Proof.
  intros Hmu Hc Hw.
  destruct ws as [[ids mk ar rd mx dbg px] [b1 b2 b3 b4 b5 b6 b7 b8 b9] c0 p t n ic sr m tr lg].
  destruct w as [dv ps dl wr]. simpl in Hmu, Hc, Hw. subst m c0 wr.
  match goal with
  | |- exists ws', pingLoop (?w0 :: rest) ?ws0 = _ /\ _ =>
      assert (E : pingLoop (w0 :: rest) ws0 = pingLoop [w0] ws0)
        by (destruct b6, dbg; vm_compute; reflexivity)
  end.
  rewrite E. clear E.
  run_on. destruct b6, dbg; conjuncts; try (vm_compute; reflexivity); by_running_nil.
Qed.

Lemma failed_ping_ends_the_heartbeat_only_witness :
  mu connected_client = Free /\ conn connected_client = Some 1%nat /\
  writes broken_pipe = Some (ErrExternal "write: broken pipe") /\
  exists ws',
    pingLoop [broken_pipe; fair 1%nat] connected_client = Ret Returned ws' /\
    trace ws' = trace connected_client ++
      [WriteMessage 1%nat "PING";
       CallOnError (ErrWrap "failed to send ping" (ErrExternal "write: broken pipe"));
       TickerStop] /\
    conn ws' = Some 1%nat.
Proof.
  split; [reflexivity|]. split; [reflexivity|]. split; [reflexivity|].
  destruct (failed_ping_ends_the_heartbeat_only broken_pipe (ErrExternal "write: broken pipe")
              [fair 1%nat] connected_client 1%nat eq_refl eq_refl eq_refl)
    as (ws' & Hrun & Htr & Hc & _).
  exists ws'. split; [exact Hrun|]. split; [exact Htr | exact Hc].
Defined.

(** *** [Unsubscribe] and [Subscribe], composed *)




(** A [Subscribe] made while disconnected returns success and writes
    nothing, whatever the world; the identifiers are in the frame of the
    next [Connect]. *)
Theorem Subscribe_while_disconnected_is_sent_by_Connect
    (ids : list string) (w0 w : World) (ws : WebSocketClient)
    (creds : string * string * string) (c : Conn) :
  mu ws = Free -> isConnecting ws = false -> conn ws = None ->
  ProxyUrl (options ws) = "" -> derives w = inr creds -> dials w = inr c ->
  exists ws1,
    Subscribe ids w0 ws = Ret None ws1 /\
    trace ws1 = trace ws /\
    AssetIDs (options ws1) = AssetIDs (options ws) ++ ids /\
    exists ws2,
      Connect w ws1 = Ret (option_map (ErrWrap "failed to send subscription") (writes w)) ws2 /\
      last_frame (trace ws2) = Some (AssetIDs (options ws) ++ ids).
Proof.
  intros Hmu Hic Hc Hpx Hd Hdial.
  destruct ws as [[ids0 mk ar rd mx dbg px] [b1 b2 b3 b4 b5 b6 oc b8 b9] c0 p t n ic sr m tr lg].
  destruct w as [dv ps dl wr]. destruct creds as [[key secret] pass].
  simpl in Hmu, Hic, Hc, Hpx, Hd, Hdial. subst m ic c0 px dv dl.
  run_on. conjuncts; try (vm_compute; reflexivity).
  run_on. destruct dbg, oc, wr as [e|]; conjuncts; try (vm_compute; reflexivity);
    last_frame_by_running.
Qed.

Lemma Subscribe_while_disconnected_is_sent_by_Connect_witness :
  mu demo_client = Free /\ isConnecting demo_client = false /\ conn demo_client = None /\
  exists ws1,
    Subscribe ["C"] broken_pipe demo_client = Ret None ws1 /\
    trace ws1 = trace demo_client /\
    exists ws2,
      Connect (fair 1%nat) ws1 = Ret None ws2 /\
      last_frame (trace ws2) = Some ["A"; "B"; "C"].
Proof.
  split; [reflexivity|]. split; [reflexivity|]. split; [reflexivity|].
  destruct (Subscribe_while_disconnected_is_sent_by_Connect ["C"] broken_pipe (fair 1%nat)
              demo_client ("key", "secret", "passphrase") 1%nat
              eq_refl eq_refl eq_refl eq_refl eq_refl eq_refl)
    as (ws1 & Hrun & Htr & _ & ws2 & Hrun2 & Hlast).
  exists ws1. split; [exact Hrun|]. split; [exact Htr|].
  exists ws2. split; [exact Hrun2 | exact Hlast].
Defined.

(** *** Returning with the mutex released *)

Lemma runs_ret {A : Type} (m : RWMutex) (a : A) : runs m m (ret a).
Proof. intros ws H. exists a, ws. auto. Qed.

Lemma runs_read {A : Type} (m : RWMutex) (f : WebSocketClient -> A) : runs m m (read f).
Proof. intros ws H. exists (f ws), ws. auto. Qed.

Lemma runs_bind {A B : Type} (m1 m2 m3 : RWMutex) (c : M A) (k : A -> M B) :
  runs m1 m2 c -> (forall a, runs m2 m3 (k a)) -> runs m1 m3 (bind c k).
Proof.
  intros Hc Hk ws H. destruct (Hc ws H) as (a & ws1 & Hrun & H1).
  destruct (Hk a ws1 H1) as (b & ws2 & Hrun2 & H2).
  exists b, ws2. rewrite (bind_Ret _ _ _ _ _ Hrun). auto.
Qed.

Lemma runs_update (m : RWMutex) (f : WebSocketClient -> WebSocketClient) :
  (forall ws, mu (f ws) = mu ws) -> runs m m (update f).
Proof. intros Hf ws H. exists tt, (f ws). rewrite Hf. auto. Qed.

Lemma runs_emit (m : RWMutex) (e : Event) : runs m m (emit e).
Proof. apply runs_update. reflexivity. Qed.

Lemma runs_when (m : RWMutex) (b : bool) (c : M unit) : runs m m c -> runs m m (when b c).
Proof. intros Hc. destruct b; [exact Hc | apply runs_ret]. Qed.

Lemma runs_for_each {A : Type} (m : RWMutex) (body : A -> M unit) (l : list A) :
  (forall a, runs m m (body a)) -> runs m m (for_each body l).
Proof.
  intros Hb. induction l as [|a l IH]; simpl; [apply runs_ret|].
  eapply runs_bind; [apply Hb | intros _; exact IH].
Qed.

Lemma runs_Lock : runs Free Writer Lock.
Proof. intros ws H. exists tt, (set_mu Writer ws). unfold Lock. rewrite H. auto. Qed.

Lemma runs_Unlock (m : RWMutex) : runs m Free Unlock.
Proof. intros ws H. exists tt, (set_mu Free ws). auto. Qed.

Lemma runs_RLock : runs Free (Readers 0) RLock.
Proof. intros ws H. exists tt, (set_mu (Readers 0) ws). unfold RLock. rewrite H. auto. Qed.

Lemma runs_RUnlock : runs (Readers 0) Free RUnlock.
Proof.
  intros ws H. exists tt, (set_mu Free ws). unfold RUnlock, update. rewrite H. auto.
Qed.

Lemma runs_log (m : RWMutex) (args : list LogArg) : runs m m (log args).
Proof.
  unfold log. eapply runs_bind; [apply runs_read|]. intros d.
  apply runs_when, runs_update. reflexivity.
Qed.

Create HintDb runs.

#[local] Hint Resolve runs_ret runs_read runs_emit runs_Lock runs_Unlock runs_RLock
  runs_RUnlock runs_log : runs.

(** Take an operation apart along its binds and branches, following the
    mutex from one primitive to the next. *)
Ltac runner :=
  repeat first
    [ eassumption
    | solve [eauto with runs]
    | apply runs_when
    | apply runs_update; reflexivity
    | eapply runs_bind; [|intros ?]
    | match goal with
      | |- runs _ _ (match ?x with _ => _ end) => destruct x
      end ].

Lemma runs_IsConnected : runs Free Free IsConnected.
Proof. unfold IsConnected. runner. Qed.

Lemma runs_sendSubscription (w : World) : runs Free Free (sendSubscription w).
Proof. unfold sendSubscription. runner. Qed.

Lemma runs_cleanup : runs Free Free cleanup.
Proof. unfold cleanup. runner. Qed.

#[local] Hint Resolve runs_IsConnected runs_sendSubscription runs_cleanup : runs.

Lemma runs_Disconnect : runs Free Free Disconnect.
Proof. unfold Disconnect. runner. Qed.

Lemma runs_Subscribe (ids : list string) (w : World) : runs Free Free (Subscribe ids w).
Proof. unfold Subscribe. runner. Qed.

Lemma runs_Unsubscribe (ids : list string) : runs Free Free (Unsubscribe ids).
Proof. unfold Unsubscribe. cbv zeta. runner. Qed.

Lemma runs_handleError (m : RWMutex) (err : error) : runs m m (handleError err).
Proof. unfold handleError. runner. Qed.

#[local] Hint Resolve runs_handleError : runs.

Lemma runs_parseAndDispatch (m : RWMutex) (data : Payload) : runs m m (parseAndDispatch data).
Proof. unfold parseAndDispatch. runner. Qed.

Lemma runs_processMessage (m : RWMutex) (data : Payload) : runs m m (processMessage data).
Proof.
  unfold processMessage. destruct (json_Unmarshal_RawMessages data).
  - apply runs_for_each. intros a. apply runs_parseAndDispatch.
  - apply runs_parseAndDispatch.
Qed.

Lemma runs_scheduleReconnect : runs Free Free scheduleReconnect.
Proof. unfold scheduleReconnect. runner. Qed.

#[local] Hint Resolve runs_processMessage runs_scheduleReconnect : runs.

Lemma runs_handleDisconnect (code : Z) (reason : string) :
  runs Free Free (handleDisconnect code reason).
Proof. unfold handleDisconnect. runner. Qed.

Lemma runs_read_loop (reads : list ReadResult) : runs Free Free (read_loop reads).
Proof. induction reads as [|r rest IH]; cbn [read_loop]; runner. Qed.

Lemma runs_handleMessages (reads : list ReadResult) : runs Free Free (handleMessages reads).
Proof.
  unfold handleMessages. pose proof (runs_read_loop reads).
  pose proof runs_handleDisconnect. runner.
Qed.

Lemma runs_ping_ticks (ticks : list World) : runs Free Free (ping_ticks ticks).
Proof. induction ticks as [|w rest IH]; cbn [ping_ticks]; runner. Qed.

Lemma runs_pingLoop (ticks : list World) : runs Free Free (pingLoop ticks).
Proof. unfold pingLoop. pose proof (runs_ping_ticks ticks). runner. Qed.

Lemma runs_client_of {A : Type} (c : M A) (ws : WebSocketClient) :
  runs Free Free c -> mu ws = Free -> mu (client_of (c ws)) = Free.
Proof. intros Hc H. destruct (Hc ws H) as (a & ws' & -> & H'). exact H'. Qed.

(** Started with the mutex free, every operation but [Connect] returns,
    whatever the client and the world are, and leaves the mutex free: none
    of them can block the others.  So however the calls of the owner, the
    read-loops and the heartbeat loops follow one another, the mutex is free
    in between. *)
Theorem only_Connect_can_block :
  runs Free Free Disconnect /\
  runs Free Free IsConnected /\
  (forall ids w, runs Free Free (Subscribe ids w)) /\
  (forall ids, runs Free Free (Unsubscribe ids)) /\
  (forall reads, runs Free Free (handleMessages reads)) /\
  (forall ticks, runs Free Free (pingLoop ticks)) /\
  (forall l ws, forallb not_a_Connect l = true -> mu ws = Free -> mu (steps l ws) = Free).
Proof.
  repeat split;
    auto using runs_Disconnect, runs_IsConnected, runs_Subscribe, runs_Unsubscribe,
               runs_handleMessages, runs_pingLoop.
  intros l. induction l as [|s l IH]; intros ws Hl Hmu; [exact Hmu|].
  simpl in Hl. apply andb_true_iff in Hl. destruct Hl as [Hs Hl].
  simpl. apply IH; [exact Hl|].
  destruct s; try discriminate; simpl; apply runs_client_of;
    auto using runs_Disconnect, runs_IsConnected, runs_Subscribe, runs_Unsubscribe,
               runs_handleMessages, runs_pingLoop.
Qed.

Lemma only_Connect_can_block_witness :
  forallb not_a_Connect
    [StepSubscribe ["C"] broken_pipe; StepReadLoop [ReadError true (ErrExternal "EOF")];
     StepPingLoop [fair 1%nat]; StepDisconnect; StepUnsubscribe ["A"]] = true /\
  mu connected_client = Free /\
  mu (steps [StepSubscribe ["C"] broken_pipe; StepReadLoop [ReadError true (ErrExternal "EOF")];
             StepPingLoop [fair 1%nat]; StepDisconnect; StepUnsubscribe ["A"]]
        connected_client) = Free.
Proof.
  split; [reflexivity|]. split; [reflexivity|].
  destruct only_Connect_can_block as (_ & _ & _ & _ & _ & _ & free).
  apply free; reflexivity.
Defined.

(** *** What only [Connect] and [Disconnect] change *)

Section Untouched.

Variable P : WebSocketClient -> Prop.
Hypothesis P_mu : forall m ws, P ws -> P (set_mu m ws).
Hypothesis P_logged : forall l ws, P ws -> P (set_logged l ws).
Hypothesis P_trace : forall t ws, P ws -> P (set_trace t ws).
Hypothesis P_pingTicker : forall b ws, P ws -> P (set_pingTicker b ws).
Hypothesis P_reconnectTimer : forall t ws, P ws -> P (set_reconnectTimer t ws).
Hypothesis P_reconnectAttempts : forall n ws, P ws -> P (set_reconnectAttempts n ws).
Hypothesis P_AssetIDs :
  forall l ws, P ws -> P (set_options (set_AssetIDs l (options ws)) ws).

Lemma untouched_Lock : keeps P Lock.
Proof. intros ws H. unfold Lock. destruct (mu ws); simpl; auto. Qed.

Lemma untouched_RLock : keeps P RLock.
Proof. intros ws H. unfold RLock. destruct (mu ws); simpl; auto. Qed.

Lemma untouched_RUnlock : keeps P RUnlock.
Proof. apply keeps_update. intros ws H. destruct (mu ws) as [| |[|n]]; auto. Qed.

Lemma untouched_Unlock : keeps P Unlock.
Proof. apply keeps_update. auto. Qed.

Lemma untouched_emit (e : Event) : keeps P (emit e).
Proof. apply keeps_update. auto. Qed.

Lemma untouched_log (args : list LogArg) : keeps P (log args).
Proof.
  unfold log. apply keeps_bind; [apply keeps_read|]. intros d.
  apply keeps_when, keeps_update. auto.
Qed.

Create HintDb untouched.

Hint Resolve untouched_Lock untouched_RLock untouched_RUnlock untouched_Unlock
  untouched_emit untouched_log : untouched.

Ltac untoucher :=
  repeat first
    [ assumption
    | solve [auto with untouched]
    | apply keeps_ret
    | apply keeps_read
    | apply keeps_when
    | apply keeps_bind; [|intros ?]
    | apply keeps_update; solve [auto]
    | match goal with
      | |- keeps _ (match ?x with _ => _ end) => destruct x
      end ].

Lemma untouched_IsConnected : keeps P IsConnected.
Proof. unfold IsConnected. untoucher. Qed.

Lemma untouched_sendSubscription (w : World) : keeps P (sendSubscription w).
Proof. unfold sendSubscription. untoucher. Qed.

Hint Resolve untouched_IsConnected untouched_sendSubscription : untouched.

Lemma untouched_Subscribe (ids : list string) (w : World) : keeps P (Subscribe ids w).
Proof. unfold Subscribe. untoucher. Qed.

Lemma untouched_Unsubscribe (ids : list string) : keeps P (Unsubscribe ids).
Proof. unfold Unsubscribe. cbv zeta. untoucher. Qed.

Lemma untouched_cleanup : keeps P cleanup.
Proof. unfold cleanup. untoucher. Qed.

Lemma untouched_handleError (err : error) : keeps P (handleError err).
Proof. unfold handleError. untoucher. Qed.

Hint Resolve untouched_cleanup untouched_handleError : untouched.

Lemma untouched_parseAndDispatch (data : Payload) : keeps P (parseAndDispatch data).
Proof. unfold parseAndDispatch. untoucher. Qed.

Lemma untouched_processMessage (data : Payload) : keeps P (processMessage data).
Proof.
  unfold processMessage. destruct (json_Unmarshal_RawMessages data).
  - apply keeps_for_each, untouched_parseAndDispatch.
  - apply untouched_parseAndDispatch.
Qed.

Lemma untouched_scheduleReconnect : keeps P scheduleReconnect.
Proof. unfold scheduleReconnect. untoucher. Qed.

Hint Resolve untouched_processMessage untouched_scheduleReconnect : untouched.

Lemma untouched_handleDisconnect (code : Z) (reason : string) :
  keeps P (handleDisconnect code reason).
Proof. unfold handleDisconnect. untoucher. Qed.

Lemma untouched_read_loop (reads : list ReadResult) : keeps P (read_loop reads).
Proof. induction reads as [|r rest IH]; cbn [read_loop]; untoucher. Qed.

Lemma untouched_handleMessages (reads : list ReadResult) : keeps P (handleMessages reads).
Proof.
  unfold handleMessages. pose proof (untouched_read_loop reads).
  pose proof untouched_handleDisconnect. untoucher.
Qed.

Lemma untouched_ping_ticks (ticks : list World) : keeps P (ping_ticks ticks).
Proof. induction ticks as [|w rest IH]; cbn [ping_ticks]; untoucher. Qed.

Lemma untouched_pingLoop (ticks : list World) : keeps P (pingLoop ticks).
Proof. unfold pingLoop. pose proof (untouched_ping_ticks ticks). untoucher. Qed.

Lemma untouched_steps (l : list Step) (ws : WebSocketClient) :
  forallb keeps_the_handle l = true -> P ws -> P (steps l ws).
Proof.
  revert ws. induction l as [|s l IH]; intros ws Hl H; [exact H|].
  simpl in Hl. apply andb_true_iff in Hl. destruct Hl as [Hs Hl].
  simpl. apply IH; [exact Hl|].
  destruct s; try discriminate; simpl.
  - now apply untouched_Subscribe.
  - now apply untouched_Unsubscribe.
  - now apply untouched_IsConnected.
  - now apply untouched_handleMessages.
  - now apply untouched_pingLoop.
Qed.

End Untouched.

Lemma steps_leave_the_mutex_free (l : list Step) (ws : WebSocketClient) :
  forallb not_a_Connect l = true -> mu ws = Free -> mu (steps l ws) = Free.
Proof.
  revert ws. induction l as [|s l IH]; intros ws Hl Hmu; [exact Hmu|].
  simpl in Hl. apply andb_true_iff in Hl. destruct Hl as [Hs Hl].
  simpl. apply IH; [exact Hl|].
  destruct s; try discriminate; simpl; apply runs_client_of;
    auto using runs_Disconnect, runs_IsConnected, runs_Subscribe, runs_Unsubscribe,
               runs_handleMessages, runs_pingLoop.
Qed.

Lemma keeps_the_handle_not_a_Connect (l : list Step) :
  forallb keeps_the_handle l = true -> forallb not_a_Connect l = true.
Proof.
  induction l as [|s l IH]; simpl; [reflexivity|].
  intros H. apply andb_true_iff in H. destruct H as [Hs Hl].
  rewrite (IH Hl). destruct s; try discriminate; reflexivity.
Qed.

(** Whatever the read-loops and the heartbeat loops do, and whatever
    [Subscribe], [Unsubscribe] and [IsConnected] calls the owner makes,
    the handle, the connecting flag, the reconnect flag, the callbacks and
    the options other than the Subscription Set stay as they are: a handle
    is set by [Connect] alone and cleared by [Disconnect] alone, also after
    the connection behind it is lost. *)
Theorem only_Connect_and_Disconnect_touch_the_handle (l : list Step) (ws : WebSocketClient) :
  forallb keeps_the_handle l = true ->
  let ws' := steps l ws in
  conn ws' = conn ws /\ isConnecting ws' = isConnecting ws /\
  shouldReconnect ws' = shouldReconnect ws /\ callbacks ws' = callbacks ws /\
  set_AssetIDs [] (options ws') = set_AssetIDs [] (options ws).
Proof.
  intros Hl.
  apply (untouched_steps
           (fun x => conn x = conn ws /\ isConnecting x = isConnecting ws /\
                     shouldReconnect x = shouldReconnect ws /\ callbacks x = callbacks ws /\
                     set_AssetIDs [] (options x) = set_AssetIDs [] (options ws)));
    auto.
Qed.

Lemma only_Connect_and_Disconnect_touch_the_handle_witness :
  forallb keeps_the_handle
    [StepReadLoop [Frame TextMessage (Doc trade_frame); ReadError true (ErrExternal "EOF")];
     StepPingLoop [broken_pipe]; StepUnsubscribe ["A"]] = true /\
  conn (steps [StepReadLoop [Frame TextMessage (Doc trade_frame);
                             ReadError true (ErrExternal "EOF")];
               StepPingLoop [broken_pipe]; StepUnsubscribe ["A"]] connected_client) =
    conn connected_client.
Proof.
  split; [reflexivity|].
  apply (only_Connect_and_Disconnect_touch_the_handle
           [StepReadLoop [Frame TextMessage (Doc trade_frame);
                          ReadError true (ErrExternal "EOF")];
            StepPingLoop [broken_pipe]; StepUnsubscribe ["A"]] connected_client).
  reflexivity.
Defined.

(** Once a client holds a handle and is not connecting, every later
    [Connect], by the owner or by the reconnect timer, and whatever the
    read-loops, the heartbeat loops and the Subscription Set calls did in
    between, takes the write lock and waits in [IsConnected] for the read
    lock: it never returns, dials nothing and writes no frame. *)
Theorem Connect_on_a_held_handle_never_returns
    (l : list Step) (w : World) (n : Z) (ws : WebSocketClient) (c : Conn) :
  mu ws = Free -> conn ws = Some c -> isConnecting ws = false ->
  forallb keeps_the_handle l = true ->
  Connect w (steps l ws) = Blocked (set_mu Writer (steps l ws)) /\
  returned (reconnect_closure n w (steps l ws)) = None /\
  trace (client_of (reconnect_closure n w (steps l ws))) = trace (steps l ws).
Proof.
  intros Hmu Hc Hic Hl.
  assert (Hmu' : mu (steps l ws) = Free)
    by (apply steps_leave_the_mutex_free; [apply keeps_the_handle_not_a_Connect|]; assumption).
  assert (H : conn (steps l ws) = conn ws /\ isConnecting (steps l ws) = isConnecting ws).
  { apply (untouched_steps
             (fun x => conn x = conn ws /\ isConnecting x = isConnecting ws)); auto. }
  destruct H as [Hc' Hic']. rewrite Hc in Hc'. rewrite Hic in Hic'.
  pose proof (Connect_waits_for_itself w _ c Hmu' Hic' Hc') as Hblock.
  split; [exact Hblock|].
  unfold reconnect_closure.
  destruct (log_runs [LStr "Attempting reconnect "; LInt n; LStr "..."] (steps l ws))
    as (ws1 & Hrun & Htr & Hob).
  destruct (only_observed_fields _ _ Hob) as (_ & _ & Hc1 & Hmu1 & _ & Hic1 & _).
  rewrite Hc' in Hc1. rewrite Hmu' in Hmu1. rewrite Hic' in Hic1.
  rewrite (bind_Ret _ _ _ _ _ Hrun).
  rewrite (bind_Blocked _ _ _ _ (Connect_waits_for_itself w ws1 c Hmu1 Hic1 Hc1)).
  simpl. auto.
Qed.

Lemma Connect_on_a_held_handle_never_returns_witness :
  mu connected_client = Free /\ conn connected_client = Some 1%nat /\
  isConnecting connected_client = false /\
  forallb keeps_the_handle [StepReadLoop [ReadError true (ErrExternal "EOF")]] = true /\
  Connect (fair 2%nat) (steps [StepReadLoop [ReadError true (ErrExternal "EOF")]] connected_client) =
    Blocked (set_mu Writer
               (steps [StepReadLoop [ReadError true (ErrExternal "EOF")]] connected_client)).
Proof.
  split; [reflexivity|]. split; [reflexivity|]. split; [reflexivity|]. split; [reflexivity|].
  apply (Connect_on_a_held_handle_never_returns
           [StepReadLoop [ReadError true (ErrExternal "EOF")]] (fair 2%nat) 1
           connected_client 1%nat); reflexivity.
Defined.

Lemma Connect_while_connecting_witness :
  let ws := client_of (Connect bad_proxy proxied_client) in
  mu ws = Free /\ isConnecting ws = true /\
  exists ws', Connect (fair 1%nat) ws = Ret None ws' /\ trace ws' = trace ws.
Proof.
  cbv zeta. split; [reflexivity|]. split; [reflexivity|].
  destruct (Connect_while_connecting (fair 1%nat) (client_of (Connect bad_proxy proxied_client))
              eq_refl eq_refl) as (ws' & Hrun & Htr & _).
  exists ws'. split; assumption.
Defined.

(** *** [NewWebSocketClient] *)

(** A new client is disconnected, with reconnection allowed and no callback
    registered.  The options are the ones given, except that a client with
    auto-reconnect never has a reconnect delay of zero: a zero delay is
    replaced by five seconds; without auto-reconnect, or with any other
    delay (a negative one too), the options are untouched.  No options at
    all give a client without auto-reconnect and with an empty
    Subscription Set. *)
Theorem NewWebSocketClient_defaults (o : WebSocketClientOptions) :
  let ws := NewWebSocketClient (Some o) in
  conn ws = None /\ isConnecting ws = false /\ shouldReconnect ws = true /\
  reconnectAttempts ws = 0 /\ mu ws = Free /\ trace ws = [] /\
  callbacks ws = no_callbacks /\
  IsConnected ws = Ret false ws /\
  (AutoReconnect o = true -> ReconnectDelay (options ws) <> 0) /\
  (AutoReconnect o = false \/ ReconnectDelay o <> 0 -> options ws = o) /\
  (AutoReconnect o = true -> ReconnectDelay o = 0 ->
   options ws = set_ReconnectDelay (5 * second) o) /\
  AssetIDs (options ws) = AssetIDs o /\
  MaxReconnectAttempts (options ws) = MaxReconnectAttempts o /\
  options (NewWebSocketClient None) = zero_options.
Proof.
  cbv zeta. unfold NewWebSocketClient.
  destruct o as [ids mk ar rd mx dbg px]. cbn [AutoReconnect ReconnectDelay].
  destruct ar; cbn [andb]; [destruct (Z.eqb_spec rd 0) as [->|Hrd]|]; fields;
    conjuncts; try reflexivity; try discriminate; try congruence.
  all: try (intros [H|H]; congruence).
  all: try (intros _ H; congruence).
Qed.
